(** * Trajectory-replay mock LLM server

    A shallow embedding of [tui_e2e/mock_llm_server.py]: the replay cursor
    ([TrajectoryReplayState]), the OpenAI response builders
    ([OpenAIResponseBuilder]), the event converter
    ([TrajectoryResponseConverter]) and the request handler built by
    [create_request_handler], followed by the properties of the
    specification that were checked against them.

    Python values are modelled by [pyval]; a Python call that can raise is
    a computation in the monad [M], which threads a state and keeps the
    mutations made before an exception was raised. *)

From Stdlib Require Import ZArith String Ascii List Bool Lia Permutation DecimalString.
From stdpp Require Import base tactics option list.
Import ListNotations.

Set Warnings "-register-all".
Local Open Scope string_scope.
Local Open Scope Z_scope.

(** ** Python values *)

(** The values the module handles: what [json.loads] produces and what
    the builders assemble before [json.dumps].  A [dict] keeps its
    insertion order, as Python's does; numbers are restricted to [int]. *)
Inductive pyval : Type :=
| PNone
| PBool (b : bool)
| PInt (z : Z)
| PStr (s : string)
| PList (items : list pyval)
| PDict (entries : list (string * pyval)).

Definition pydict : Type := list (string * pyval).

(** [d.get(key)], [None] of Rocq standing for an absent key. *)
Fixpoint dict_lookup (d : pydict) (key : string) : option pyval :=
  match d with
  | [] => None
  | (k, v) :: rest => if String.eqb k key then Some v else dict_lookup rest key
  end.

(** [d.get(key, default)]. *)
Definition dict_get (d : pydict) (key : string) (default : pyval) : pyval :=
  match dict_lookup d key with
  | Some v => v
  | None => default
  end.

(** Python's truth value of an object, as [if x:] and [x and y] test it. *)
Definition truthy (v : pyval) : bool :=
  match v with
  | PNone => false
  | PBool b => b
  | PInt z => negb (z =? 0)
  | PStr s => negb (String.eqb s EmptyString)
  | PList items => match items with [] => false | _ => true end
  | PDict entries => match entries with [] => false | _ => true end
  end.

(** The exceptions the modelled code can raise; the last three are
    those [json.loads] raises besides [json.JSONDecodeError]. *)
Inductive exn : Type :=
| AttributeError
| IndexError
| TypeError
| UnicodeDecodeError
| RecursionError
| ValueError.

Inductive outcome (A : Type) : Type :=
| Return (a : A)
| Raise (e : exn).
Arguments Return {A} a.
Arguments Raise {A} e.

(** ** State and exceptions *)

(** A computation over a state [S]: it returns or raises, and in both
    cases leaves a state behind. *)
Definition M (S A : Type) : Type := S -> outcome A * S.

Definition ret {S A : Type} (a : A) : M S A := fun s => (Return a, s).

Definition bind {S A B : Type} (c : M S A) (k : A -> M S B) : M S B :=
  fun s =>
    match c s with
    | (Return a, s') => k a s'
    | (Raise e, s') => (Raise e, s')
    end.

Definition get {S : Type} : M S S := fun s => (Return s, s).

Definition put {S : Type} (s : S) : M S unit := fun _ => (Return tt, s).

Definition lift_outcome {S A : Type} (o : outcome A) : M S A := fun s => (o, s).

Declare Scope py_scope.
Delimit Scope py_scope with py.
Notation "x <- c ;; k" := (bind c (fun x => k))
  (at level 100, c at next level, right associativity) : py_scope.
Notation "c ;;; k" := (bind c (fun _ => k))
  (at level 100, right associativity) : py_scope.
Local Open Scope py_scope.

(** [l[i]] on a Python list: a negative index counts from the end, an
    index out of range raises [IndexError]. *)
Definition py_index {A : Type} (l : list A) (i : Z) : outcome A :=
  let n := Z.of_nat (length l) in
  let j := if i <? 0 then i + n else i in
  if (j <? 0) || (n <=? j) then Raise IndexError
  else match l !! Z.to_nat j with
       | Some x => Return x
       | None => Raise IndexError
       end.

(** ** Trajectory events *)

(** Modelled from the spec: the [TrajectoryEvent] type of
    [tui_e2e/trajectory.py], which this module only imports for type
    checking.  An event has a [kind] tag, an optional [tool_call]
    dictionary (id, name, arguments), an optional [llm_message]
    dictionary (role, content) and an optional fallback [tool_name]. *)
Record TrajectoryEvent : Type := {
  kind : string;
  tool_call : option pydict;
  llm_message : option pydict;
  tool_name : option string
}.

(** ** TrajectoryReplayState *)

(** The dataclass fields.  [_lock] is taken and released inside each
    method, so it is free between two sequential calls and does not appear
    here; the concurrent model below makes it explicit. *)
Record TrajectoryReplayState : Type := {
  responses : list TrajectoryEvent;
  current_index : Z
}.

(** [TrajectoryReplayState(responses=events)]: [current_index] takes its
    default, 0. *)
Definition new_replay_state (events : list TrajectoryEvent) : TrajectoryReplayState :=
  {| responses := events; current_index := 0 |}.

Definition set_current_index (self : TrajectoryReplayState) (i : Z) : TrajectoryReplayState :=
  {| responses := responses self; current_index := i |}.

Definition get_next_response : M TrajectoryReplayState (option TrajectoryEvent) :=
  self <- get ;;
  if current_index self >=? Z.of_nat (length (responses self)) then ret None
  else
    response <- lift_outcome (py_index (responses self) (current_index self)) ;;
    (put (set_current_index self (current_index self + 1)) ;;;
     ret (Some response)).

Definition peek_next_response : M TrajectoryReplayState (option TrajectoryEvent) :=
  self <- get ;;
  if current_index self >=? Z.of_nat (length (responses self)) then ret None
  else
    response <- lift_outcome (py_index (responses self) (current_index self)) ;;
    ret (Some response).

Definition reset : M TrajectoryReplayState unit :=
  self <- get ;;
  put (set_current_index self 0).

(** [n] calls of [get_next_response] in a row, with what each returned. *)
Fixpoint draw_n (n : nat) : M TrajectoryReplayState (list (option TrajectoryEvent)) :=
  match n with
  | O => ret []
  | S k =>
      r <- get_next_response ;;
      rs <- draw_n k ;;
      ret (r :: rs)
  end.

(** The cursor invariant of the specification. *)
Definition cursor_in_range (st : TrajectoryReplayState) : Prop :=
  0 <= current_index st <= Z.of_nat (length (responses st)).

(** ** Identifiers and the clock *)

(** The two sources of non-determinism: [uuid.uuid4().hex] and
    [int(time.time())].  Each is a sequence of future readings with the
    number of readings already taken. *)
Record World : Type := {
  uuid_source : nat -> string;
  uuid_drawn : nat;
  clock_source : nat -> Z;
  clock_read : nat
}.

(** [uuid.uuid4().hex] *)
Definition uuid4_hex : M World string :=
  fun w =>
    (Return (uuid_source w (uuid_drawn w)),
     {| uuid_source := uuid_source w; uuid_drawn := S (uuid_drawn w);
        clock_source := clock_source w; clock_read := clock_read w |}).

(** [int(time.time())] *)
Definition time_now : M World Z :=
  fun w =>
    (Return (clock_source w (clock_read w)),
     {| uuid_source := uuid_source w; uuid_drawn := uuid_drawn w;
        clock_source := clock_source w; clock_read := S (clock_read w) |}).

(** [s[:24]] *)
Definition first24 (s : string) : string := substring 0 24 s.

(** ** OpenAIResponseBuilder *)

Definition DEFAULT_USAGE : pyval :=
  PDict [("prompt_tokens", PInt 100); ("completion_tokens", PInt 50);
         ("total_tokens", PInt 150)].

(** A [str | None] argument as a value. *)
Definition opt_str (o : option string) : pyval :=
  match o with
  | Some s => PStr s
  | None => PNone
  end.

(** [build_completion(completion_id, message, finish_reason)]; the caller
    passes ["stop"] where the source relies on the default. *)
Definition build_completion (completion_id : string) (message : pyval)
    (finish_reason : string) : M World pyval :=
  created <- time_now ;;
  ret (PDict [("id", PStr completion_id);
              ("object", PStr "chat.completion");
              ("created", PInt created);
              ("model", PStr "mock-llm");
              ("choices",
               PList [PDict [("index", PInt 0); ("message", message);
                             ("finish_reason", PStr finish_reason)]]);
              ("usage", DEFAULT_USAGE)]).

(** [build_stream_chunk(completion_id, delta, finish_reason)]; the caller
    passes [None] where the source relies on the default. *)
Definition build_stream_chunk (completion_id : string) (delta : pyval)
    (finish_reason : option string) : M World pyval :=
  created <- time_now ;;
  ret (PDict [("id", PStr completion_id);
              ("object", PStr "chat.completion.chunk");
              ("created", PInt created);
              ("model", PStr "mock-llm");
              ("choices",
               PList [PDict [("index", PInt 0); ("delta", delta);
                             ("finish_reason", opt_str finish_reason)]])]).

Definition build_message_chunks (completion_id : string) (content : string)
    (finish_reason : string) : M World (list pyval) :=
  c1 <- build_stream_chunk completion_id
          (PDict [("role", PStr "assistant"); ("content", PStr "")]) None ;;
  c2 <- build_stream_chunk completion_id (PDict [("content", PStr content)]) None ;;
  c3 <- build_stream_chunk completion_id (PDict []) (Some finish_reason) ;;
  ret [c1; c2; c3].

(** The arguments are annotated [str] in the source, but the converter
    passes whatever the trajectory's tool-call dictionary holds. *)
Definition build_tool_call_chunks (completion_id : string)
    (tool_call_id tool_name arguments : pyval) : M World (list pyval) :=
  c1 <- build_stream_chunk completion_id
          (PDict [("role", PStr "assistant");
                  ("content", PNone);
                  ("tool_calls",
                   PList [PDict [("index", PInt 0);
                                 ("id", tool_call_id);
                                 ("type", PStr "function");
                                 ("function",
                                  PDict [("name", tool_name);
                                         ("arguments", PStr "")])]])])
          None ;;
  c2 <- build_stream_chunk completion_id
          (PDict [("tool_calls",
                   PList [PDict [("index", PInt 0);
                                 ("function",
                                  PDict [("arguments", arguments)])]])])
          None ;;
  c3 <- build_stream_chunk completion_id (PDict []) (Some "tool_calls") ;;
  ret [c1; c2; c3].

(** ** TrajectoryResponseConverter *)

(** The two-key dictionary every conversion returns. *)
Record Envelope : Type := {
  completion : pyval;
  stream_chunks : list pyval
}.

(** [create_default_response(content)]; ["Task completed."] is the
    default of [content]. *)
Definition create_default_response (content : string) : M World Envelope :=
  u <- uuid4_hex ;;
  let completion_id := "chatcmpl-" ++ first24 u in
  c <- build_completion completion_id
         (PDict [("role", PStr "assistant"); ("content", PStr content)]) "stop" ;;
  chunks <- build_message_chunks completion_id content "stop" ;;
  ret {| completion := c; stream_chunks := chunks |}.

Definition default_content : string := "Task completed.".

(** [not d] for an optional dictionary: [None] and [{}] are both false. *)
Definition dict_present (d : option pydict) : bool :=
  match d with
  | Some (_ :: _) => true
  | _ => false
  end.

(** [event.tool_name or "unknown"] *)
Definition tool_name_or_unknown (event : TrajectoryEvent) : string :=
  match tool_name event with
  | Some n => if String.eqb n "" then "unknown" else n
  | None => "unknown"
  end.

Definition _create_tool_call_response (event : TrajectoryEvent) : M World Envelope :=
  match tool_call event with
  | Some ((_ :: _) as tc) =>
      (* the default of [get] is evaluated whether or not the key is there *)
      u <- uuid4_hex ;;
      let tool_call_id := dict_get tc "id" (PStr ("call_" ++ first24 u)) in
      let tool_name := dict_get tc "name" (PStr (tool_name_or_unknown event)) in
      let arguments := dict_get tc "arguments" (PStr "{}") in
      u' <- uuid4_hex ;;
      let completion_id := "chatcmpl-" ++ first24 u' in
      let message :=
        PDict [("role", PStr "assistant");
               ("content", PNone);
               ("tool_calls",
                PList [PDict [("id", tool_call_id);
                              ("type", PStr "function");
                              ("function",
                               PDict [("name", tool_name);
                                      ("arguments", arguments)])]])] in
      c <- build_completion completion_id message "tool_calls" ;;
      chunks <- build_tool_call_chunks completion_id tool_call_id tool_name arguments ;;
      ret {| completion := c; stream_chunks := chunks |}
  | _ => create_default_response default_content
  end.

(** [item.get("type") == "text"] on an item that is a [dict]. *)
Definition is_text_block (item : pyval) : bool :=
  match item with
  | PDict d =>
      match dict_lookup d "type" with
      | Some (PStr t) => String.eqb t "text"
      | _ => false
      end
  | _ => false
  end.

(** [item.get("text", "")]; only evaluated on items that passed
    [is_text_block]. *)
Definition block_text (item : pyval) : pyval :=
  match item with
  | PDict d => dict_get d "text" (PStr "")
  | _ => PStr ""
  end.

(** ["".join(parts)]: a part that is not a [str] raises [TypeError]. *)
Fixpoint str_join (parts : list pyval) : outcome string :=
  match parts with
  | [] => Return ""
  | PStr s :: rest =>
      match str_join rest with
      | Return t => Return (s ++ t)
      | Raise e => Raise e
      end
  | _ :: _ => Raise TypeError
  end.

Definition _extract_content (llm_message : pydict) : outcome string :=
  match dict_get llm_message "content" (PStr "") with
  | PStr s => Return s
  | PList items => str_join (map block_text (List.filter is_text_block items))
  | _ => Return ""
  end.

Definition _create_message_response (event : TrajectoryEvent) : M World Envelope :=
  match llm_message event with
  | Some ((_ :: _) as msg) =>
      u <- uuid4_hex ;;
      let completion_id := "chatcmpl-" ++ first24 u in
      content <- lift_outcome (_extract_content msg) ;;
      c <- build_completion completion_id
             (PDict [("role", PStr "assistant"); ("content", PStr content)]) "stop" ;;
      chunks <- build_message_chunks completion_id content "stop" ;;
      ret {| completion := c; stream_chunks := chunks |}
  | _ => create_default_response default_content
  end.

Definition convert_event (event : TrajectoryEvent) : M World Envelope :=
  if String.eqb (kind event) "ActionEvent" && dict_present (tool_call event)
  then _create_tool_call_response event
  else if String.eqb (kind event) "MessageEvent" && dict_present (llm_message event)
  then _create_message_response event
  else create_default_response default_content.

(** ** The request handler *)

(** What [json.loads(request.data)] does with the body of a request: it
    returns the decoded value, raises [json.JSONDecodeError] on text
    that is not JSON, or raises another exception: [UnicodeDecodeError]
    on bytes that are not valid UTF-8, UTF-16 or UTF-32, [RecursionError]
    on a nesting that is too deep, [ValueError] on an integer literal
    with more digits than [int] converts.  The handler sees the body
    only through this call, so a request carries the body in this
    form. *)
Inductive json_loads_result : Type :=
| Loaded (request_data : pyval)
| JSONDecodeError
| LoadsRaised (e : exn).

Record Request : Type := {
  path : string;
  method : string;
  data : json_loads_result
}.

(** [werkzeug.Response(body, status=..., content_type=..., headers=...)];
    [status] is 200 and [headers] is empty where the source gives none. *)
Record Response : Type := {
  body : string;
  status : Z;
  content_type : string;
  headers : list (string * string)
}.

(** What the handler closes over and what it draws identifiers and time
    from. *)
Record Server : Type := {
  replay_state : TrajectoryReplayState;
  world : World
}.

Definition on_replay {A : Type} (c : M TrajectoryReplayState A) : M Server A :=
  fun s =>
    let (r, st) := c (replay_state s) in
    (r, {| replay_state := st; world := world s |}).

Definition on_world {A : Type} (c : M World A) : M Server A :=
  fun s =>
    let (r, w) := c (world s) in
    (r, {| replay_state := replay_state s; world := w |}).

(** [v.get(key, default)] on an arbitrary value: only a [dict] has the
    method. *)
Definition py_get (v : pyval) (key : string) (default : pyval) : outcome pyval :=
  match v with
  | PDict d => Return (dict_get d key default)
  | _ => Raise AttributeError
  end.

(** The line feed of ["\n"]. *)
Definition LF : string := String (ascii_of_nat 10) EmptyString.

Definition in_paths (p : string) (paths : list string) : bool :=
  existsb (String.eqb p) paths.

Section Handler.

(** [json.dumps], of Python's standard library. *)
Variable json_dumps : pyval -> string.

Definition _format_sse_response (chunks : list pyval) : string :=
  let lines := map (fun chunk => "data: " ++ json_dumps chunk ++ LF ++ LF) chunks in
  let done := "data: [DONE]" ++ LF ++ LF in
  String.concat "" (app lines [done]).

Definition health_response (remaining : Z) : Response :=
  {| body := json_dumps (PDict [("status", PStr "ok");
                                ("server", PStr "mock-llm-trajectory");
                                ("responses_remaining", PInt remaining)]);
     status := 200;
     content_type := "application/json";
     headers := [] |}.

Definition reset_response : Response :=
  {| body := json_dumps (PDict [("status", PStr "reset")]);
     status := 200;
     content_type := "application/json";
     headers := [] |}.

Definition invalid_json_response : Response :=
  {| body := json_dumps (PDict [("error", PStr "Invalid JSON")]);
     status := 400;
     content_type := "application/json";
     headers := [] |}.

Definition not_found_response : Response :=
  {| body := json_dumps (PDict [("error", PStr "Not found")]);
     status := 404;
     content_type := "application/json";
     headers := [] |}.

Definition sse_response (response : Envelope) : Response :=
  {| body := _format_sse_response (stream_chunks response);
     status := 200;
     content_type := "text/event-stream";
     headers := [("Cache-Control", "no-cache"); ("Connection", "keep-alive")] |}.

Definition completion_response (response : Envelope) : Response :=
  {| body := json_dumps (completion response);
     status := 200;
     content_type := "application/json";
     headers := [] |}.

(** The closure [handler] returned by [create_request_handler]. *)
Definition handler (request : Request) : M Server Response :=
  if in_paths (path request) ["/health"; "/"] && String.eqb (method request) "GET"
  then
    s <- get ;;
    let remaining := Z.of_nat (length (responses (replay_state s)))
                     - current_index (replay_state s) in
    ret (health_response remaining)
  else if String.eqb (path request) "/reset" && String.eqb (method request) "GET"
  then
    (on_replay reset ;;; ret reset_response)
  else if in_paths (path request) ["/chat/completions"; "/v1/chat/completions"]
          && String.eqb (method request) "POST"
  then
    match data request with
    | JSONDecodeError => ret invalid_json_response
    | LoadsRaised e =>
        (* [except json.JSONDecodeError] catches nothing else *)
        lift_outcome (Raise e)
    | Loaded request_data =>
        stream <- lift_outcome (py_get request_data "stream" (PBool false)) ;;
        event <- on_replay get_next_response ;;
        response <- on_world
                      match event with
                      | None => create_default_response default_content
                      | Some ev => convert_event ev
                      end ;;
        if truthy stream then ret (sse_response response)
        else ret (completion_response response)
    end
  else ret not_found_response.

End Handler.

(** ** Concurrent callers of [get_next_response] *)

(** Where a thread that called [get_next_response] stands.  The names
    follow the lines of the method; [self.current_index += 1] is a load
    followed by a store. *)
Inductive pc : Type :=
| AtWith                                          (* [with self._lock:] *)
| AtTest                                          (* [if self.current_index >= len(...)] *)
| AtRead                                          (* [response = self.responses[...]] *)
| AtLoad (response : TrajectoryEvent)             (* [self.current_index + 1] *)
| AtStore (response : TrajectoryEvent) (v : Z)    (* [self.current_index = ...] *)
| AtExit (r : outcome (option TrajectoryEvent))   (* leaving the [with] block *)
| Finished (r : outcome (option TrajectoryEvent)).

(** The object shared by the threads, its lock, and the threads. *)
Record Config : Type := {
  shared : TrajectoryReplayState;
  locked : bool;
  threads : list pc
}.

Definition move (c : Config) (i : nat) (p : pc) : Config :=
  {| shared := shared c; locked := locked c; threads := <[i := p]> (threads c) |}.

(** One step of thread [i], when it can take one: a thread waiting for a
    held lock and a finished thread cannot. *)
Definition thread_step (i : nat) (c : Config) : option Config :=
  match threads c !! i with
  | None => None
  | Some AtWith =>
      if locked c then None
      else Some {| shared := shared c; locked := true;
                   threads := <[i := AtTest]> (threads c) |}
  | Some AtTest =>
      if current_index (shared c) >=? Z.of_nat (length (responses (shared c)))
      then Some (move c i (AtExit (Return None)))
      else Some (move c i AtRead)
  | Some AtRead =>
      match py_index (responses (shared c)) (current_index (shared c)) with
      | Return response => Some (move c i (AtLoad response))
      | Raise e => Some (move c i (AtExit (Raise e)))
      end
  | Some (AtLoad response) =>
      Some (move c i (AtStore response (current_index (shared c) + 1)))
  | Some (AtStore response v) =>
      Some {| shared := set_current_index (shared c) v; locked := locked c;
              threads := <[i := AtExit (Return (Some response))]> (threads c) |}
  | Some (AtExit r) =>
      Some {| shared := shared c; locked := false;
              threads := <[i := Finished r]> (threads c) |}
  | Some (Finished _) => None
  end.

(** An interleaving is the list of the threads that step, in order. *)
Fixpoint run (schedule : list nat) (c : Config) : option Config :=
  match schedule with
  | [] => Some c
  | i :: rest =>
      match thread_step i c with
      | Some c' => run rest c'
      | None => None
      end
  end.

(** Thread [i] stepping alone for as long as it can, [fuel] steps at
    most. *)
Fixpoint run_alone (fuel : nat) (i : nat) (c : Config) : Config :=
  match fuel with
  | O => c
  | S k =>
      match thread_step i c with
      | Some c' => run_alone k i c'
      | None => c
      end
  end.

(** [m] threads about to call [get_next_response] on a fresh state. *)
Definition start_config (events : list TrajectoryEvent) (m : nat) : Config :=
  {| shared := new_replay_state events; locked := false;
     threads := replicate m AtWith |}.

Definition is_finished (p : pc) : bool :=
  match p with
  | Finished _ => true
  | _ => false
  end.

Definition all_finished (c : Config) : bool := forallb is_finished (threads c).

(** The thread holds the lock. *)
Definition in_critical_section (p : pc) : bool :=
  match p with
  | AtTest | AtRead | AtLoad _ | AtStore _ _ | AtExit _ => true
  | AtWith | Finished _ => false
  end.

Definition critical (ts : list pc) : nat :=
  length (List.filter in_critical_section ts).

(** The event a thread has taken off the list, once the store of the
    new cursor is done. *)
Definition drawn (p : pc) : list TrajectoryEvent :=
  match p with
  | AtExit (Return (Some e)) | Finished (Return (Some e)) => [e]
  | _ => []
  end.

Definition drawn_by (ts : list pc) : list TrajectoryEvent :=
  concat (map drawn ts).

(** What a thread knows is right for the cursor it works on, and no
    thread came out empty-handed or with an exception. *)
Definition pc_ok (events : list TrajectoryEvent) (cursor : Z) (p : pc) : Prop :=
  match p with
  | AtWith | AtTest | AtRead => True
  | AtLoad response => events !! Z.to_nat cursor = Some response
  | AtStore response v =>
      events !! Z.to_nat cursor = Some response /\ v = cursor + 1
  | AtExit r | Finished r => exists e, r = Return (Some e)
  end.

(** The invariant of every configuration that [m <= len(events)] callers
    can reach: at most the thread that holds the lock is inside the
    method, the cursor counts the events drawn, and these are the first
    events of the list, each once. *)
Record replay_inv (events : list TrajectoryEvent) (m : nat) (c : Config) : Prop := {
  inv_responses : responses (shared c) = events;
  inv_enough : (m <= length events)%nat;
  inv_threads : length (threads c) = m;
  inv_lock : critical (threads c) = if locked c then 1%nat else 0%nat;
  inv_cursor : current_index (shared c) = Z.of_nat (length (drawn_by (threads c)));
  inv_drawn : drawn_by (threads c) ≡ₚ take (length (drawn_by (threads c))) events;
  inv_pcs : Forall (pc_ok events (current_index (shared c))) (threads c)
}.

(** The steps a thread has left, at most. *)
Definition steps_left (p : pc) : nat :=
  match p with
  | AtWith => 6
  | AtTest => 5
  | AtRead => 4
  | AtLoad _ => 3
  | AtStore _ _ => 2
  | AtExit _ => 1
  | Finished _ => 0
  end.

Definition total_steps_left (ts : list pc) : nat :=
  list_sum (map steps_left ts).

(** ** Reading the wire structures *)

(** [v[key]] and [v[i]], [None] of Rocq where Python would raise. *)
Definition item (v : pyval) (key : string) : option pyval :=
  match v with
  | PDict d => dict_lookup d key
  | _ => None
  end.

Definition at_index (v : pyval) (i : nat) : option pyval :=
  match v with
  | PList items => items !! i
  | _ => None
  end.

(** [x["choices"][0][field]], on a completion or a chunk. *)
Definition first_choice (x : pyval) (field : string) : option pyval :=
  choices ← item x "choices";
  choice ← at_index choices 0;
  item choice field.

(** [chunk["choices"][0]["delta"]] *)
Definition chunk_delta (chunk : pyval) : option pyval := first_choice chunk "delta".

(** [chunk["choices"][0]["finish_reason"]] *)
Definition chunk_finish_reason (chunk : pyval) : option pyval :=
  first_choice chunk "finish_reason".

(** [completion["choices"][0]["message"]["content"]] *)
Definition message_content (c : pyval) : option pyval :=
  message ← first_choice c "message";
  item message "content".

(** The envelope carries [id] in its completion and in each of its
    three chunks. *)
Definition envelope_shares_id (env : Envelope) (id : string) : Prop :=
  item (completion env) "id" = Some (PStr id) /\
  exists c1 c2 c3,
    stream_chunks env = [c1; c2; c3] /\
    item c1 "id" = Some (PStr id) /\
    item c2 "id" = Some (PStr id) /\
    item c3 "id" = Some (PStr id).

(** What one content block contributes to the text, in the words of
    the specification: its text when it is tagged ["text"], nothing when
    it is of any other type. *)
Definition text_of_block (b : pyval) : string :=
  match b with
  | PDict d =>
      match dict_lookup d "type", dict_lookup d "text" with
      | Some (PStr tag), Some (PStr t) => if String.eqb tag "text" then t else ""
      | _, _ => ""
      end
  | _ => ""
  end.

(** The in-order concatenation over a list of blocks. *)
Fixpoint text_of_blocks (blocks : list pyval) : string :=
  match blocks with
  | [] => ""
  | b :: rest => text_of_block b ++ text_of_blocks rest
  end.

(** A block tagged ["text"] holds a string under ["text"], or nothing. *)
Definition text_block_ok (b : pyval) : Prop :=
  match b with
  | PDict d =>
      dict_lookup d "type" = Some (PStr "text") ->
      dict_lookup d "text" = None \/ exists t, dict_lookup d "text" = Some (PStr t)
  | _ => True
  end.

(** The request is for one of the two chat-completions routes. *)
Definition is_chat_post (request : Request) : Prop :=
  (path request = "/chat/completions" \/ path request = "/v1/chat/completions") /\
  method request = "POST".

(** The request matches none of the routes of the handler. *)
Definition unrecognized (request : Request) : Prop :=
  ~ ((path request = "/health" \/ path request = "/") /\ method request = "GET") /\
  ~ (path request = "/reset" /\ method request = "GET") /\
  ~ is_chat_post request.

(** The envelope of a conversion that returned. *)
Definition envelope_of (r : outcome Envelope * World) : Envelope :=
  match fst r with
  | Return env => env
  | Raise _ => {| completion := PNone; stream_chunks := [] |}
  end.

(** The completion id built from the [k]-th identifier of a world. *)
Definition completion_id_at (w : World) (k : nat) : string :=
  "chatcmpl-" ++ first24 (uuid_source w k).

(** The block is a dictionary tagged ["text"]. *)
Definition tagged_text (b : pyval) : Prop :=
  exists d, b = PDict d /\ dict_lookup d "type" = Some (PStr "text").

(** ** Sample data *)

Definition sample_blocks : list pyval :=
  [PDict [("type", PStr "text"); ("text", PStr "Hello")];
   PDict [("type", PStr "image_url"); ("image_url", PStr "file:///tmp/a.png")];
   PStr "raw";
   PDict [("type", PStr "text"); ("text", PStr ", world")]].

Definition sample_message : pydict :=
  [("role", PStr "assistant"); ("content", PList sample_blocks)].

(** A printer to run the handler with in the examples.  It writes the
    structure of a value the way [json.dumps] does and leaves the
    characters of a string as they are. *)
Definition quoted (s : string) : string :=
  String (ascii_of_nat 34) (s ++ String (ascii_of_nat 34) EmptyString).

Fixpoint sample_dumps (v : pyval) : string :=
  match v with
  | PNone => "null"
  | PBool true => "true"
  | PBool false => "false"
  | PInt z => NilZero.string_of_int (Z.to_int z)
  | PStr s => quoted s
  | PList items => "[" ++ String.concat ", " (map sample_dumps items) ++ "]"
  | PDict entries =>
      "{" ++ String.concat ", "
               (map (fun kv : string * pyval => let (k, x) := kv in quoted k ++ ": " ++ sample_dumps x)
                    entries)
          ++ "}"
  end.

Definition sample_world : World :=
  {| uuid_source := fun _ => "0f8fad5bd9cb469fa16570867728950e";
     uuid_drawn := 0;
     clock_source := fun n => 1700000000 + Z.of_nat n;
     clock_read := 0 |}.

Definition message_event : TrajectoryEvent :=
  {| kind := "MessageEvent"; tool_call := None;
     llm_message := Some sample_message; tool_name := None |}.

Definition action_event : TrajectoryEvent :=
  {| kind := "ActionEvent";
     tool_call := Some [("id", PStr "call_1"); ("name", PStr "terminal");
                        ("arguments", PStr "{}")];
     llm_message := None; tool_name := Some "terminal" |}.

Definition observation_event : TrajectoryEvent :=
  {| kind := "ObservationEvent"; tool_call := None;
     llm_message := None; tool_name := None |}.

Definition sample_server (events : list TrajectoryEvent) : Server :=
  {| replay_state := new_replay_state events; world := sample_world |}.

(** [POST /chat/completions] with the body [{"stream": stream}]. *)
Definition chat_request (stream : bool) : Request :=
  {| path := "/chat/completions"; method := "POST";
     data := Loaded (PDict [("stream", PBool stream)]) |}.

(** [POST /v1/chat/completions] with a body that is not JSON. *)
Definition malformed_request : Request :=
  {| path := "/v1/chat/completions"; method := "POST"; data := JSONDecodeError |}.

(** [DELETE /reset]: a known path with a method no route takes. *)
Definition delete_reset_request : Request :=
  {| path := "/reset"; method := "DELETE"; data := JSONDecodeError |}.

Definition two_events : list TrajectoryEvent := [action_event; message_event].

(** Thread 1 enters first and runs to its return, then thread 0. *)
Definition second_thread_first : list nat :=
  [1; 1; 1; 1; 1; 1; 0; 0; 0; 0; 0; 0]%nat.

(** ** More readers of the wire structures *)

(** [completion["choices"][0]["finish_reason"]] *)
Definition completion_finish_reason (c : pyval) : option pyval :=
  first_choice c "finish_reason".

(** [completion["choices"][0]["message"]["tool_calls"][0]] *)
Definition first_tool_call (c : pyval) : option pyval :=
  message ← first_choice c "message";
  calls ← item message "tool_calls";
  at_index calls 0.

(** [chunk["choices"][0]["delta"]["tool_calls"][0]] *)
Definition chunk_tool_call (chunk : pyval) : option pyval :=
  delta ← chunk_delta chunk;
  calls ← item delta "tool_calls";
  at_index calls 0.

(** [call["function"][field]] *)
Definition function_field (call : pyval) (field : string) : option pyval :=
  f ← item call "function";
  item f field.

(** [chunk["choices"][0]["delta"]["content"]] *)
Definition chunk_content (chunk : pyval) : option pyval :=
  delta ← chunk_delta chunk;
  item delta "content".

(** The two shapes of an envelope finish alike: the completion and the
    3rd chunk carry the same finish reason, ["stop"] or ["tool_calls"],
    the first two chunks carry none, and the completion reports the
    fixed model name and usage. *)
Definition envelope_finishes_alike (env : Envelope) : Prop :=
  exists c1 c2 c3 reason,
    stream_chunks env = [c1; c2; c3] /\
    (reason = "stop" \/ reason = "tool_calls") /\
    completion_finish_reason (completion env) = Some (PStr reason) /\
    chunk_finish_reason c3 = Some (PStr reason) /\
    chunk_finish_reason c1 = Some PNone /\
    chunk_finish_reason c2 = Some PNone /\
    item (completion env) "model" = Some (PStr "mock-llm") /\
    item (completion env) "usage"
    = Some (PDict [("prompt_tokens", PInt 100); ("completion_tokens", PInt 50);
                   ("total_tokens", PInt 150)]).

(** An action event that carries a message but an empty tool call. *)
Definition action_without_call : TrajectoryEvent :=
  {| kind := "ActionEvent"; tool_call := Some [];
     llm_message := Some sample_message; tool_name := Some "terminal" |}.

(** ** Routes and events, for the statements about the handler *)

(** [GET /health] or [GET /]. *)
Definition is_health_get (request : Request) : Prop :=
  (path request = "/health" \/ path request = "/") /\ method request = "GET".

(** [GET /reset]. *)
Definition is_reset_get (request : Request) : Prop :=
  path request = "/reset" /\ method request = "GET".

(** The text of the event can be extracted: if it is a message event
    whose content is a list, each block tagged ["text"] holds a string,
    or nothing, under ["text"]. *)
Definition event_text_ok (ev : TrajectoryEvent) : Prop :=
  forall msg blocks,
    kind ev = "MessageEvent" ->
    llm_message ev = Some msg ->
    dict_lookup msg "content" = Some (PList blocks) ->
    Forall text_block_ok blocks.

(** A message event whose only block is tagged ["text"] and holds
    [None]. *)
Definition broken_message_event : TrajectoryEvent :=
  {| kind := "MessageEvent"; tool_call := None;
     llm_message :=
       Some [("content", PList [PDict [("type", PStr "text"); ("text", PNone)]])];
     tool_name := None |}.

Definition health_request : Request :=
  {| path := "/health"; method := "GET"; data := JSONDecodeError |}.

Definition reset_request : Request :=
  {| path := "/reset"; method := "GET"; data := JSONDecodeError |}.

(** What the chat-completions route does with a body that is an object
    holding [d], written out: the draw, then the conversion, then the
    choice of the shape. *)
Definition chat_outcome (json_dumps : pyval -> string) (d : pydict) (s : Server)
  : outcome Response * Server :=
  match get_next_response (replay_state s) with
  | (Raise e, st') => (Raise e, {| replay_state := st'; world := world s |})
  | (Return event, st') =>
      match match event with
            | None => create_default_response "Task completed." (world s)
            | Some ev => convert_event ev (world s)
            end
      with
      | (Raise e, w') => (Raise e, {| replay_state := st'; world := w' |})
      | (Return env, w') =>
          (Return (if truthy (dict_get d "stream" (PBool false))
                   then sse_response json_dumps env
                   else completion_response json_dumps env),
           {| replay_state := st'; world := w' |})
      end
  end.

(** A server whose two events have been drawn. *)
Definition exhausted_server : Server :=
  {| replay_state := {| responses := two_events; current_index := 2 |};
     world := sample_world |}.

(** [POST /v1/chat/completions] with the body
    [{"model": "gpt-4o", "messages": [], "stream": 1}]. *)
Definition verbose_chat_request : Request :=
  {| path := "/v1/chat/completions"; method := "POST";
     data := Loaded (PDict [("model", PStr "gpt-4o"); ("messages", PList []);
                            ("stream", PInt 1)]) |}.

(** ** MockLLMServer *)

(** Modelled from the spec: the [Trajectory] type of
    [tui_e2e/trajectory.py], of which [MockLLMServer] uses
    [get_llm_responses()], the ordered events to replay.  A trajectory
    object is true in Python's sense. *)
Record Trajectory : Type := {
  get_llm_responses : list TrajectoryEvent
}.

(** [f"{port}"] *)
Definition str_of_int (z : Z) : string := NilZero.string_of_int (Z.to_int z).

Section MockServer.

(** [pytest_httpserver.HTTPServer] and the methods [MockLLMServer] calls
    on it.  The state of the library object is passed along; an object
    is true in Python's sense. *)
Variable HTTPServer : Type.
Variable HTTPServer_new : string -> Z -> HTTPServer.
Variable respond_with_handler : HTTPServer -> HTTPServer.
Variable server_start : HTTPServer -> HTTPServer.
Variable server_port : HTTPServer -> Z.
Variable server_clear : HTTPServer -> HTTPServer.
Variable server_is_running : HTTPServer -> bool.
Variable server_stop : HTTPServer -> HTTPServer.

(** The attributes of a [MockLLMServer]; [_converter] has no state. *)
Record MockLLMServer : Type := {
  host : string;
  port : Z;
  trajectory : option Trajectory;
  _server : option HTTPServer;
  _replay_state : option TrajectoryReplayState
}.

(** [MockLLMServer(trajectory, host, port)] *)
Definition MockLLMServer_init (trajectory : option Trajectory) (host : string)
    (port : Z) : MockLLMServer :=
  {| host := host; port := port; trajectory := trajectory;
     _server := None; _replay_state := None |}.

(** The property [base_url]. *)
Definition base_url (self : MockLLMServer) : string :=
  "http://" ++ host self ++ ":" ++ str_of_int (port self).

(** [start()]: the server it leaves and the URL it returns. *)
Definition start (self : MockLLMServer) : MockLLMServer * string :=
  let responses :=
    match trajectory self with
    | Some t => get_llm_responses t
    | None => []
    end in
  let server := HTTPServer_new (host self) (port self) in
  let server := respond_with_handler server in
  let server := server_start server in
  let self' :=
    {| host := host self; port := server_port server;
       trajectory := trajectory self;
       _server := Some server;
       _replay_state := Some (new_replay_state responses) |} in
  (self', base_url self').

(** [stop()]: the server it leaves and, when there was a library server,
    the state in which that one is left behind. *)
Definition stop (self : MockLLMServer) : MockLLMServer * option HTTPServer :=
  match _server self with
  | Some server =>
      let server := server_clear server in
      let server := if server_is_running server then server_stop server else server in
      ({| host := host self; port := port self; trajectory := trajectory self;
          _server := None; _replay_state := _replay_state self |},
       Some server)
  | None => (self, None)
  end.

(** [reset()] of the server. *)
Definition server_reset (self : MockLLMServer) : MockLLMServer :=
  match _replay_state self with
  | Some st =>
      {| host := host self; port := port self; trajectory := trajectory self;
         _server := _server self;
         _replay_state := Some (snd (reset st)) |}
  | None => self
  end.

(** [__enter__] and [__exit__]. *)
Definition __enter__ (self : MockLLMServer) : MockLLMServer := fst (start self).

Definition __exit__ (self : MockLLMServer) : MockLLMServer * option HTTPServer :=
  stop self.

(** A request that reaches the running server is handled on the replay
    state the handler was created with, the one [_replay_state] holds. *)
Definition serve (json_dumps : pyval -> string) (request : Request)
    (self : MockLLMServer) (w : World)
  : option (outcome Response * MockLLMServer * World) :=
  match _server self, _replay_state self with
  | Some _, Some st =>
      let (r, s') := handler json_dumps request {| replay_state := st; world := w |} in
      Some (r,
            {| host := host self; port := port self; trajectory := trajectory self;
               _server := _server self;
               _replay_state := Some (replay_state s') |},
            world s')
  | _, _ => None
  end.

End MockServer.

Arguments host {HTTPServer} _.
Arguments port {HTTPServer} _.
Arguments trajectory {HTTPServer} _.
Arguments _server {HTTPServer} _.
Arguments _replay_state {HTTPServer} _.
Arguments base_url {HTTPServer} _.
Arguments server_reset {HTTPServer} _.
Arguments serve {HTTPServer} _ _ _ _.

(** A stand-in for the library server in the examples: the port it
    listens on and whether it runs. *)
Record sample_http : Type := {
  listening_on : Z;
  runs : bool
}.

Definition sample_http_new (h : string) (p : Z) : sample_http :=
  {| listening_on := p; runs := false |}.

Definition sample_http_start (srv : sample_http) : sample_http :=
  {| listening_on := if listening_on srv =? 0 then 49152 else listening_on srv;
     runs := true |}.

Definition sample_start : MockLLMServer sample_http -> MockLLMServer sample_http * string :=
  start sample_http sample_http_new (fun srv => srv) sample_http_start listening_on.

(** [MockLLMServer()]: no trajectory, the default host and port. *)
Definition bare_server : MockLLMServer sample_http :=
  MockLLMServer_init sample_http None "127.0.0.1" 0.

(** ** Any number of concurrent callers *)

(** What the threads that have returned have returned, in the order of
    the threads. *)
Definition results (ts : list pc) : list (outcome (option TrajectoryEvent)) :=
  concat (map (fun p => match p with Finished r => [r] | _ => [] end) ts).

(** What a thread knows is right for the cursor it works on: past the
    test the cursor is below the length, the event read is the one at
    the cursor, and a thread comes out with an event or, when the cursor
    is at the end, with [None]. *)
Definition pc_sound (events : list TrajectoryEvent) (cursor : Z) (p : pc) : Prop :=
  match p with
  | AtWith | AtTest => True
  | AtRead => cursor < Z.of_nat (length events)
  | AtLoad response => events !! Z.to_nat cursor = Some response
  | AtStore response v =>
      events !! Z.to_nat cursor = Some response /\ v = cursor + 1
  | AtExit r | Finished r =>
      (exists e, r = Return (Some e)) \/
      (r = Return None /\ cursor = Z.of_nat (length events))
  end.

(** The invariant of every configuration that callers of a fresh state
    can reach, however many they are. *)
Record shared_inv (events : list TrajectoryEvent) (c : Config) : Prop := {
  sinv_responses : responses (shared c) = events;
  sinv_lock : critical (threads c) = if locked c then 1%nat else 0%nat;
  sinv_cursor : current_index (shared c) = Z.of_nat (length (drawn_by (threads c)));
  sinv_range : (length (drawn_by (threads c)) <= length events)%nat;
  sinv_drawn : drawn_by (threads c) ≡ₚ take (length (drawn_by (threads c))) events;
  sinv_pcs : Forall (pc_sound events (current_index (shared c))) (threads c)
}.

(** One caller and then the other, each from its call to its return. *)
Definition one_after_the_other : list nat :=
  [0; 0; 0; 0; 0; 0; 1; 1; 1]%nat.

(** * Properties *)

(** ** Indexing *)

Lemma py_index_in_range {A : Type} (l : list A) (i : Z) :
  0 <= i < Z.of_nat (length l) ->
  exists x, l !! Z.to_nat i = Some x /\ py_index l i = Return x.
Proof.
  intros Hi. unfold py_index.
  destruct (Z.ltb_spec i 0) as [Hneg | _]; [lia |].
  destruct (Z.ltb_spec i 0) as [Hneg | _]; [lia |].
  destruct (Z.leb_spec (Z.of_nat (length l)) i) as [Hge | _]; [lia |].
  simpl.
  destruct (l !! Z.to_nat i) as [x |] eqn:Hx.
  - exists x. split; reflexivity.
  - apply lookup_ge_None in Hx. lia.
Qed.

(** ** The replay cursor *)

Lemma get_next_response_exhausted (st : TrajectoryReplayState) :
  Z.of_nat (length (responses st)) <= current_index st ->
  get_next_response st = (Return None, st).
Proof.
  intros H. unfold get_next_response, bind, get.
  destruct (Z.geb_spec (current_index st) (Z.of_nat (length (responses st))));
    [reflexivity | lia].
Qed.

Lemma get_next_response_draw (st : TrajectoryReplayState) :
  0 <= current_index st < Z.of_nat (length (responses st)) ->
  exists e,
    responses st !! Z.to_nat (current_index st) = Some e /\
    get_next_response st
    = (Return (Some e), set_current_index st (current_index st + 1)).
Proof.
  intros H. destruct (py_index_in_range (responses st) (current_index st) H)
    as [e [Hl Hp]].
  exists e. split; [exact Hl |].
  unfold get_next_response, bind, get, lift_outcome, put, ret.
  destruct (Z.geb_spec (current_index st) (Z.of_nat (length (responses st))));
    [lia |].
  rewrite Hp. reflexivity.
Qed.

Lemma peek_next_response_state (st : TrajectoryReplayState) :
  snd (peek_next_response st) = st.
Proof.
  unfold peek_next_response, bind, get, lift_outcome, ret.
  destruct (current_index st >=? Z.of_nat (length (responses st))); [reflexivity |].
  destruct (py_index (responses st) (current_index st)); reflexivity.
Qed.

(** The results of [n] draws from a state whose cursor is in range. *)
Lemma draw_n_from (n : nat) :
  forall (events : list TrajectoryEvent) (k : nat),
    (k <= length events)%nat ->
    draw_n n {| responses := events; current_index := Z.of_nat k |}
    = (Return ((Some <$> take n (drop k events))
               ++ replicate (n - (length events - k)) None)%list,
       {| responses := events;
          current_index := Z.of_nat (Nat.min (k + n) (length events)) |}).
Proof.
  induction n as [| n IH]; intros events k Hk.
  - simpl. unfold ret. rewrite Nat.add_0_r, Nat.min_l by lia. reflexivity.
  - cbn [draw_n]. unfold bind at 1.
    destruct (decide (k < length events)%nat) as [Hlt | Hge].
    + destruct (get_next_response_draw
                  {| responses := events; current_index := Z.of_nat k |})
        as [e [He Hg]]; [simpl; lia |].
      cbn [responses current_index] in He. rewrite Nat2Z.id in He.
      rewrite Hg. unfold set_current_index. cbn [responses current_index].
      replace (Z.of_nat k + 1) with (Z.of_nat (S k)) by lia.
      unfold bind at 1. rewrite (IH events (S k)) by lia.
      unfold ret.
      rewrite (drop_S _ _ _ He).
      replace (n - (length events - S k))%nat
        with (S n - (length events - k))%nat by lia.
      replace (S k + n)%nat with (k + S n)%nat by lia.
      reflexivity.
    + rewrite get_next_response_exhausted by (simpl; lia).
      unfold bind at 1. rewrite (IH events k) by lia.
      unfold ret.
      rewrite drop_ge by lia. rewrite !take_nil.
      replace (S n - (length events - k))%nat
        with (S (n - (length events - k)))%nat by lia.
      rewrite !Nat.min_r by lia. reflexivity.
Qed.

(** C1: on a state constructed with a list of events, [n] calls of
    [get_next_response] in a row return the first [n] events in their
    order, each once, and every call after the last event returns
    [None]: the results are the first [n] events followed by [None] for
    each call beyond the length of the list, and the cursor ends at
    [min n (length events)]. *)
Theorem draw_n_replays_in_order (events : list TrajectoryEvent) (n : nat) :
  draw_n n (new_replay_state events)
  = (Return ((Some <$> take n events)
             ++ replicate (n - length events) None)%list,
     {| responses := events;
        current_index := Z.of_nat (Nat.min n (length events)) |}).
Proof.
  pose proof (draw_n_from n events 0 ltac:(lia)) as H.
  rewrite drop_0, Nat.sub_0_r in H. exact H.
Qed.

Example draw_three_of_two :
  fst (draw_n 3 (new_replay_state two_events))
  = Return [Some action_event; Some message_event; None].
Proof. reflexivity. Qed.

Example draw_after_reset :
  fst ((draw_n 1 ;;; reset ;;; draw_n 2) (new_replay_state two_events))
  = Return [Some action_event; Some message_event].
Proof. reflexivity. Qed.

Lemma reset_state (st : TrajectoryReplayState) :
  reset st = (Return tt, set_current_index st 0).
Proof. reflexivity. Qed.

(** C7: the invariant [0 <= current_index <= len(responses)] holds at
    construction and is preserved by every method.  [get_next_response]
    adds exactly 1 to the cursor when it is below the length and leaves
    the state as it is when the trajectory is exhausted;
    [peek_next_response] never changes the state; [reset] sets the cursor
    to 0 from any state. *)
Theorem cursor_invariant :
  (forall events, cursor_in_range (new_replay_state events)) /\
  (forall st, cursor_in_range st ->
     let st' := snd (get_next_response st) in
     cursor_in_range st' /\
     responses st' = responses st /\
     current_index st'
     = (if current_index st <? Z.of_nat (length (responses st))
        then current_index st + 1 else current_index st)) /\
  (forall st, snd (peek_next_response st) = st) /\
  (forall st, snd (reset st) = set_current_index st 0 /\
              cursor_in_range (snd (reset st))).
Proof.
  split; [| split; [| split]].
  - intros events. unfold cursor_in_range, new_replay_state. simpl. lia.
  - intros st [Hlo Hhi]. simpl.
    destruct (Z.ltb_spec (current_index st) (Z.of_nat (length (responses st))))
      as [Hlt | Hge].
    + destruct (get_next_response_draw st) as [e [_ Hg]]; [lia |].
      rewrite Hg. unfold cursor_in_range, set_current_index. simpl.
      repeat split; lia.
    + rewrite get_next_response_exhausted by lia.
      unfold cursor_in_range. simpl. repeat split; lia.
  - exact peek_next_response_state.
  - intros st. rewrite reset_state. unfold cursor_in_range, set_current_index.
    simpl. repeat split; lia.
Qed.

Lemma cursor_invariant_witness :
  cursor_in_range (snd (get_next_response (new_replay_state two_events))) /\
  responses (snd (get_next_response (new_replay_state two_events))) = two_events /\
  current_index (snd (get_next_response (new_replay_state two_events))) = 1.
Proof.
  exact (proj1 (proj2 cursor_invariant) (new_replay_state two_events)
           (proj1 cursor_invariant two_events)).
Defined.

(** What [peek_next_response] returns is what [get_next_response] returns
    on the same state. *)
Lemma peek_returns_next (st : TrajectoryReplayState) :
  fst (peek_next_response st) = fst (get_next_response st).
Proof.
  unfold peek_next_response, get_next_response, bind, get, lift_outcome, put, ret.
  destruct (current_index st >=? Z.of_nat (length (responses st))); [reflexivity |].
  destruct (py_index (responses st) (current_index st)); reflexivity.
Qed.

Lemma get_next_response_cursor (st : TrajectoryReplayState) (e : TrajectoryEvent) :
  fst (get_next_response st) = Return (Some e) ->
  snd (get_next_response st) = set_current_index st (current_index st + 1).
Proof.
  unfold get_next_response, bind, get, lift_outcome, put, ret.
  destruct (current_index st >=? Z.of_nat (length (responses st))); [discriminate |].
  destruct (py_index (responses st) (current_index st)); [reflexivity | discriminate].
Qed.

Lemma get_next_response_none (st : TrajectoryReplayState) :
  fst (get_next_response st) = Return None ->
  snd (get_next_response st) = st.
Proof.
  unfold get_next_response, bind, get, lift_outcome, put, ret.
  destruct (current_index st >=? Z.of_nat (length (responses st))); [reflexivity |].
  destruct (py_index (responses st) (current_index st)); discriminate.
Qed.

(** C8: on any state, [peek_next_response()] immediately followed by
    [get_next_response()] gives the same result twice, both empty or both
    the same event; the peek leaves the state as it was, and when an
    event is returned the pair moves the cursor by exactly 1 (by 0 when
    the result is empty). *)
Theorem peek_then_get_agree (st : TrajectoryReplayState) :
  let after_peek := snd (peek_next_response st) in
  let after_get := snd (get_next_response after_peek) in
  fst (peek_next_response st) = fst (get_next_response after_peek) /\
  after_peek = st /\
  (forall e, fst (peek_next_response st) = Return (Some e) ->
             responses after_get = responses st /\
             current_index after_get = current_index st + 1) /\
  (fst (peek_next_response st) = Return None -> after_get = st).
Proof.
  cbv zeta. rewrite peek_next_response_state.
  split; [apply peek_returns_next |].
  split; [reflexivity |].
  split.
  - intros e He. rewrite peek_returns_next in He.
    rewrite (get_next_response_cursor st e He). split; reflexivity.
  - intros Hn. rewrite peek_returns_next in Hn.
    apply get_next_response_none. exact Hn.
Qed.

(** ** The builders *)

(** A chunk is built without raising and reads the clock once. *)
Lemma build_stream_chunk_run (completion_id : string) (delta : pyval)
    (finish_reason : option string) (w : World) :
  exists chunk,
    build_stream_chunk completion_id delta finish_reason w
    = (Return chunk,
       {| uuid_source := uuid_source w; uuid_drawn := uuid_drawn w;
          clock_source := clock_source w; clock_read := S (clock_read w) |}) /\
    item chunk "id" = Some (PStr completion_id) /\
    chunk_delta chunk = Some delta /\
    chunk_finish_reason chunk = Some (opt_str finish_reason).
Proof.
  eexists. split; [reflexivity |]. repeat split.
Qed.

(** C4: [build_tool_call_chunks] returns exactly 3 chunks.  The delta of
    the 1st announces the call with an empty arguments string; the delta
    of the 2nd carries the whole arguments string under index 0 and has
    neither [id] nor [type]; the delta of the 3rd is [{}], without
    [tool_calls], and its [finish_reason] is ["tool_calls"]. *)
Theorem build_tool_call_chunks_shape (completion_id : string)
    (tool_call_id tool_name arguments : pyval) (w : World) :
  exists c1 c2 c3 w' call2,
    build_tool_call_chunks completion_id tool_call_id tool_name arguments w
    = (Return [c1; c2; c3], w') /\
    chunk_delta c1
    = Some (PDict [("role", PStr "assistant");
                   ("content", PNone);
                   ("tool_calls",
                    PList [PDict [("index", PInt 0);
                                  ("id", tool_call_id);
                                  ("type", PStr "function");
                                  ("function",
                                   PDict [("name", tool_name);
                                          ("arguments", PStr "")])]])]) /\
    chunk_delta c2 = Some (PDict [("tool_calls", PList [call2])]) /\
    call2 = PDict [("index", PInt 0);
                   ("function", PDict [("arguments", arguments)])] /\
    item call2 "id" = None /\
    item call2 "type" = None /\
    chunk_delta c3 = Some (PDict []) /\
    (delta3 ← chunk_delta c3; item delta3 "tool_calls") = None /\
    chunk_finish_reason c3 = Some (PStr "tool_calls").
Proof.
  do 5 eexists. split; [reflexivity |]. repeat split.
Qed.

(** ** The converter *)

(** Runs the builders on a symbolic world, keeping identifiers folded. *)
Ltac run_world :=
  unfold create_default_response, build_completion, build_tool_call_chunks,
    build_message_chunks, build_stream_chunk;
  unfold bind, ret, lift_outcome, uuid4_hex, time_now;
  cbn -[first24 String.append].

Ltac shares_id :=
  split; [reflexivity | do 3 eexists; repeat split].

Lemma create_default_response_run (content : string) (w : World) :
  exists env w',
    create_default_response content w = (Return env, w') /\
    uuid_drawn w' = S (uuid_drawn w) /\
    envelope_shares_id env (completion_id_at w (uuid_drawn w)) /\
    message_content (completion env) = Some (PStr content).
Proof.
  run_world. do 2 eexists. split; [reflexivity |].
  split; [reflexivity |]. split; [shares_id | reflexivity].
Qed.

Lemma _create_tool_call_response_run (event : TrajectoryEvent) (w : World) :
  exists env w' k,
    _create_tool_call_response event w = (Return env, w') /\
    (uuid_drawn w <= k < uuid_drawn w')%nat /\
    envelope_shares_id env (completion_id_at w k).
Proof.
  unfold _create_tool_call_response.
  destruct (tool_call event) as [[| entry tc] |].
  - run_world. do 2 eexists. exists (uuid_drawn w).
    split; [reflexivity |]. split; [simpl; lia | shares_id].
  - run_world. do 2 eexists. exists (S (uuid_drawn w)).
    split; [reflexivity |]. split; [simpl; lia | shares_id].
  - run_world. do 2 eexists. exists (uuid_drawn w).
    split; [reflexivity |]. split; [simpl; lia | shares_id].
Qed.

Lemma _create_message_response_run (event : TrajectoryEvent) (w : World)
    (env : Envelope) (w' : World) :
  _create_message_response event w = (Return env, w') ->
  uuid_drawn w' = S (uuid_drawn w) /\
  envelope_shares_id env (completion_id_at w (uuid_drawn w)).
Proof.
  unfold _create_message_response.
  destruct (llm_message event) as [[| entry msg] |].
  - run_world. intros [= <- <-]. split; [reflexivity | shares_id].
  - run_world. destruct (_extract_content (entry :: msg)) as [content | e].
    + intros [= <- <-]. split; [reflexivity | shares_id].
    + discriminate.
  - run_world. intros [= <- <-]. split; [reflexivity | shares_id].
Qed.

(** C10: every envelope that [create_default_response] or
    [convert_event] produces carries one completion id, made from an
    identifier drawn during that conversion, in its completion and in
    each of its three chunks. *)
Theorem envelope_id_consistent :
  (forall content w,
     exists env w' k,
       create_default_response content w = (Return env, w') /\
       (uuid_drawn w <= k < uuid_drawn w')%nat /\
       envelope_shares_id env (completion_id_at w k)) /\
  (forall event w env w',
     convert_event event w = (Return env, w') ->
     exists k,
       (uuid_drawn w <= k < uuid_drawn w')%nat /\
       envelope_shares_id env (completion_id_at w k)).
Proof.
  split.
  - intros content w.
    destruct (create_default_response_run content w) as (env & w' & Hrun & Hd & Hid & _).
    exists env, w', (uuid_drawn w). rewrite Hd. split; [exact Hrun |]. split; [lia | exact Hid].
  - intros event w env w'. unfold convert_event.
    destruct (String.eqb (kind event) "ActionEvent" && dict_present (tool_call event)).
    + intros Hrun.
      destruct (_create_tool_call_response_run event w) as (env0 & w0 & k & Hrun0 & Hk & Hid).
      rewrite Hrun in Hrun0. injection Hrun0 as <- <-.
      exists k. split; assumption.
    + destruct (String.eqb (kind event) "MessageEvent" && dict_present (llm_message event)).
      * intros Hrun. apply _create_message_response_run in Hrun as [Hd Hid].
        exists (uuid_drawn w). rewrite Hd. split; [lia | exact Hid].
      * intros Hrun.
        destruct (create_default_response_run default_content w)
          as (env0 & w0 & Hrun0 & Hd & Hid & _).
        rewrite Hrun in Hrun0. injection Hrun0 as <- <-.
        exists (uuid_drawn w). rewrite Hd. split; [lia | exact Hid].
Qed.

(** ** Text extraction *)

Lemma is_text_block_tagged (b : pyval) :
  is_text_block b = true <-> tagged_text b.
Proof.
  unfold tagged_text. split.
  - destruct b as [| | | | | d]; simpl; try discriminate.
    destruct (dict_lookup d "type") as [[| | | t | |] |] eqn:Ht; try discriminate.
    intros Heq. apply String.eqb_eq in Heq. subst t. exists d. split; [reflexivity | exact Ht].
  - intros (d & -> & Ht). simpl. rewrite Ht. reflexivity.
Qed.

Lemma text_of_block_untagged (b : pyval) :
  is_text_block b = false -> text_of_block b = "".
Proof.
  destruct b as [| | | | | d]; try reflexivity.
  simpl. destruct (dict_lookup d "type") as [[| | | tag | |] |]; try reflexivity.
  intros ->. destruct (dict_lookup d "text") as [[| | | t | |] |]; reflexivity.
Qed.

Lemma str_join_text_blocks (blocks : list pyval) :
  Forall text_block_ok blocks ->
  str_join (map block_text (List.filter is_text_block blocks))
  = Return (text_of_blocks blocks).
Proof.
  induction 1 as [| b blocks Hb _ IH]; [reflexivity |].
  cbn [List.filter text_of_blocks].
  destruct (is_text_block b) eqn:Htag.
  - apply is_text_block_tagged in Htag as (d & -> & Ht).
    cbn [map block_text str_join text_of_block]. unfold dict_get.
    rewrite Ht. destruct (Hb Ht) as [Hnone | [t Hsome]].
    + rewrite Hnone, IH. reflexivity.
    + rewrite Hsome, IH. reflexivity.
  - rewrite IH, (text_of_block_untagged b Htag). reflexivity.
Qed.

Lemma filter_drops_untagged (blocks1 blocks2 : list pyval) (b : pyval) :
  ~ tagged_text b ->
  List.filter is_text_block (blocks1 ++ b :: blocks2)
  = List.filter is_text_block (blocks1 ++ blocks2).
Proof.
  intros Hb. rewrite !List.filter_app. cbn [List.filter].
  destruct (is_text_block b) eqn:Htag; [| reflexivity].
  apply is_text_block_tagged in Htag. contradiction.
Qed.

(** C6: a [content] that is a string is returned verbatim; a [content]
    that is a list gives the texts of its blocks tagged ["text"],
    concatenated in order, and a block of any other type can be removed
    from the list without changing the outcome. *)
Theorem extract_content_text :
  (forall llm_message s,
     dict_lookup llm_message "content" = Some (PStr s) ->
     _extract_content llm_message = Return s) /\
  (forall llm_message blocks,
     dict_lookup llm_message "content" = Some (PList blocks) ->
     Forall text_block_ok blocks ->
     _extract_content llm_message = Return (text_of_blocks blocks)) /\
  (forall message1 message2 blocks1 blocks2 b,
     dict_lookup message1 "content" = Some (PList (blocks1 ++ b :: blocks2)) ->
     dict_lookup message2 "content" = Some (PList (blocks1 ++ blocks2)) ->
     ~ tagged_text b ->
     _extract_content message1 = _extract_content message2).
Proof.
  unfold _extract_content, dict_get. repeat split.
  - intros m s ->. reflexivity.
  - intros m blocks -> Hok. apply str_join_text_blocks. exact Hok.
  - intros m1 m2 blocks1 blocks2 b -> -> Hb.
    rewrite (filter_drops_untagged blocks1 blocks2 b Hb). reflexivity.
Qed.

(** Outside the theorem's premise: a block tagged ["text"] whose text
    is not a string makes [join] raise. *)
Example extract_content_text_not_a_string :
  _extract_content
    [("content", PList [PDict [("type", PStr "text"); ("text", PNone)]])]
  = Raise TypeError.
Proof. reflexivity. Qed.

Lemma extract_content_text_witness :
  _extract_content sample_message = Return "Hello, world".
Proof.
  apply (proj1 (proj2 extract_content_text) sample_message sample_blocks).
  - reflexivity.
  - unfold sample_blocks.
    apply List.Forall_cons; [intros _; right; eexists; reflexivity |].
    apply List.Forall_cons; [intros H; discriminate H |].
    apply List.Forall_cons; [exact I |].
    apply List.Forall_cons; [intros _; right; eexists; reflexivity |].
    apply List.Forall_nil.
Defined.

(** ** The request handler *)

Section HandlerProperties.

Variable json_dumps : pyval -> string.

Lemma handler_chat_post (request : Request) :
  is_chat_post request ->
  handler json_dumps request
  = match data request with
    | JSONDecodeError => ret (invalid_json_response json_dumps)
    | LoadsRaised e => lift_outcome (Raise e)
    | Loaded request_data =>
        stream <- lift_outcome (py_get request_data "stream" (PBool false)) ;;
        event <- on_replay get_next_response ;;
        response <- on_world
                      match event with
                      | None => create_default_response default_content
                      | Some ev => convert_event ev
                      end ;;
        if truthy stream then ret (sse_response json_dumps response)
        else ret (completion_response json_dumps response)
    end.
Proof.
  destruct request as [p m d]. unfold is_chat_post. cbn [path method].
  intros [[-> | ->] ->]; reflexivity.
Qed.

Lemma in_paths_two (p a b : string) :
  in_paths p [a; b] = true <-> p = a \/ p = b.
Proof.
  unfold in_paths. cbn [existsb]. rewrite orb_false_r, orb_true_iff, !String.eqb_eq.
  reflexivity.
Qed.

Lemma handler_unrecognized (request : Request) :
  unrecognized request ->
  handler json_dumps request = ret (not_found_response json_dumps).
Proof.
  intros (Hhealth & Hreset & Hchat). unfold handler.
  destruct (in_paths (path request) ["/health"; "/"]
            && String.eqb (method request) "GET") eqn:H1.
  { exfalso. apply Hhealth. apply andb_true_iff in H1 as [Hp Hm].
    apply in_paths_two in Hp. apply String.eqb_eq in Hm. split; assumption. }
  destruct (String.eqb (path request) "/reset"
            && String.eqb (method request) "GET") eqn:H2.
  { exfalso. apply Hreset. apply andb_true_iff in H2 as [Hp Hm].
    apply String.eqb_eq in Hp, Hm. split; assumption. }
  destruct (in_paths (path request) ["/chat/completions"; "/v1/chat/completions"]
            && String.eqb (method request) "POST") eqn:H3.
  { exfalso. apply Hchat. apply andb_true_iff in H3 as [Hp Hm].
    apply in_paths_two in Hp. apply String.eqb_eq in Hm. split; assumption. }
  reflexivity.
Qed.

(** A chat-completions POST on whose body [json.loads] raises
    [JSONDecodeError] is answered 400 with [{"error": "Invalid JSON"}],
    and a request that matches no route is answered 404 with
    [{"error": "Not found"}]; in both cases the replay state (and the
    world) is left as it was, so no event is drawn. *)
Lemma malformed_and_unknown_requests_leave_state :
  (forall request s,
     is_chat_post request ->
     data request = JSONDecodeError ->
     handler json_dumps request s
     = (Return {| body := json_dumps (PDict [("error", PStr "Invalid JSON")]);
                  status := 400;
                  content_type := "application/json";
                  headers := [] |}, s)) /\
  (forall request s,
     unrecognized request ->
     handler json_dumps request s
     = (Return {| body := json_dumps (PDict [("error", PStr "Not found")]);
                  status := 404;
                  content_type := "application/json";
                  headers := [] |}, s)).
Proof.
  split.
  - intros request s Hchat Hdata.
    rewrite (handler_chat_post request Hchat), Hdata. reflexivity.
  - intros request s Hun.
    rewrite (handler_unrecognized request Hun). reflexivity.
Qed.

Lemma convert_event_unhandled (ev : TrajectoryEvent) :
  kind ev <> "ActionEvent" ->
  kind ev <> "MessageEvent" ->
  convert_event ev = create_default_response default_content.
Proof.
  intros Ha Hm. unfold convert_event.
  apply String.eqb_neq in Ha, Hm. rewrite Ha, Hm. reflexivity.
Qed.

(** The default response, with what its two shapes say. *)
Lemma create_default_response_says (content : string) (w : World) :
  exists env w' c1 c2 c3,
    create_default_response content w = (Return env, w') /\
    message_content (completion env) = Some (PStr content) /\
    stream_chunks env = [c1; c2; c3] /\
    chunk_content c2 = Some (PStr content).
Proof.
  run_world. do 5 eexists. split; [reflexivity |]. repeat split.
Qed.

(** C5: when the draw of a chat-completions request returns nothing, or
    returns an event whose kind is neither ["ActionEvent"] nor
    ["MessageEvent"], the handler answers 200 with the default envelope,
    whose completion has [choices[0].message.content == "Task completed."]
    and whose 2nd chunk carries the same content: the body is the
    completion as JSON, or, when [stream] is true, one [data:] frame for
    each of the three chunks followed by [data: [DONE]]. *)
Theorem exhausted_or_unhandled_gives_default
    (request : Request) (d : pydict) (s : Server) :
  is_chat_post request ->
  data request = Loaded (PDict d) ->
  (fst (get_next_response (replay_state s)) = Return None \/
   exists ev,
     fst (get_next_response (replay_state s)) = Return (Some ev) /\
     kind ev <> "ActionEvent" /\ kind ev <> "MessageEvent") ->
  exists env w' c1 c2 c3,
    create_default_response "Task completed." (world s) = (Return env, w') /\
    message_content (completion env) = Some (PStr "Task completed.") /\
    stream_chunks env = [c1; c2; c3] /\
    chunk_content c2 = Some (PStr "Task completed.") /\
    handler json_dumps request s
    = (Return
         (if truthy (dict_get d "stream" (PBool false))
          then {| body := ("data: " ++ json_dumps c1 ++ LF ++ LF)
                          ++ ("data: " ++ json_dumps c2 ++ LF ++ LF)
                          ++ ("data: " ++ json_dumps c3 ++ LF ++ LF)
                          ++ "data: [DONE]" ++ LF ++ LF;
                  status := 200;
                  content_type := "text/event-stream";
                  headers := [("Cache-Control", "no-cache");
                              ("Connection", "keep-alive")] |}
          else {| body := json_dumps (completion env);
                  status := 200;
                  content_type := "application/json";
                  headers := [] |}),
       {| replay_state := snd (get_next_response (replay_state s));
          world := w' |}).
Proof.
  intros Hchat Hdata Hdraw.
  destruct (create_default_response_says "Task completed." (world s))
    as (env & w' & c1 & c2 & c3 & Hrun & Hcontent & Hchunks & Hsecond).
  exists env, w', c1, c2, c3.
  split; [exact Hrun |]. split; [exact Hcontent |].
  split; [exact Hchunks |]. split; [exact Hsecond |].
  rewrite (handler_chat_post request Hchat), Hdata.
  unfold bind at 1. unfold lift_outcome, py_get.
  unfold bind at 1. unfold on_replay at 1.
  destruct (get_next_response (replay_state s)) as [r st] eqn:Hget.
  cbn [fst snd] in *.
  assert (Hconv :
    match r with
    | Return None => True
    | Return (Some ev) => convert_event ev = create_default_response default_content
    | Raise _ => False
    end).
  { destruct Hdraw as [-> | (ev & -> & Ha & Hm)]; [exact I |].
    apply convert_event_unhandled; assumption. }
  destruct r as [[ev |] | e]; [| | contradiction].
  - unfold bind at 1. unfold on_world at 1. cbn [world replay_state].
    rewrite Hconv. unfold default_content. rewrite Hrun.
    unfold ret, sse_response, completion_response, _format_sse_response.
    rewrite Hchunks.
    destruct (truthy (dict_get d "stream" (PBool false))); reflexivity.
  - unfold bind at 1. unfold on_world at 1. cbn [world replay_state].
    unfold default_content. rewrite Hrun.
    unfold ret, sse_response, completion_response, _format_sse_response.
    rewrite Hchunks.
    destruct (truthy (dict_get d "stream" (PBool false))); reflexivity.
Qed.

(** A body on which [json.loads] raises something that is not a
    [JSONDecodeError] gets no answer: the exception passes the [except]
    clause and leaves the handler, before any draw. *)
Lemma handler_loads_raised (request : Request) (e : exn) (s : Server) :
  is_chat_post request ->
  data request = LoadsRaised e ->
  handler json_dumps request s = (Raise e, s).
Proof.
  intros Hchat Hdata.
  rewrite (handler_chat_post request Hchat), Hdata. reflexivity.
Qed.

(** C3, at a body that is not valid UTF-8 (the bytes [80 61 62 63] in
    hexadecimal): a POST to [/chat/completions] with this body is not
    answered 400.  [json.loads] raises [UnicodeDecodeError], which
    [except json.JSONDecodeError] does not catch, and the handler raises
    it; the replay state is left as it was. *)
Theorem chat_post_with_undecodable_body_raises (s : Server) :
  handler json_dumps
    {| path := "/chat/completions"; method := "POST";
       data := LoadsRaised UnicodeDecodeError |} s
  = (Raise UnicodeDecodeError, s).
Proof. reflexivity. Qed.

(** A body that is valid JSON but not an object has no [get]: the handler
    raises before it draws. *)
Lemma handler_non_object_body (request : Request) (v : pyval) (s : Server) :
  is_chat_post request ->
  data request = Loaded v ->
  (forall d, v <> PDict d) ->
  handler json_dumps request s = (Raise AttributeError, s).
Proof.
  intros Hchat Hdata Hv.
  rewrite (handler_chat_post request Hchat), Hdata.
  destruct v; try reflexivity. exfalso. eapply Hv. reflexivity.
Qed.

(** C2, at the body [[]]: a POST to [/chat/completions] whose body is the
    JSON array [[]] parses, and the handler then raises [AttributeError]
    instead of returning a response. *)
Theorem chat_post_with_json_array_raises (s : Server) :
  handler json_dumps
    {| path := "/chat/completions"; method := "POST"; data := Loaded (PList []) |} s
  = (Raise AttributeError, s).
Proof. reflexivity. Qed.

End HandlerProperties.

Lemma malformed_and_unknown_requests_leave_state_witness :
  handler sample_dumps malformed_request (sample_server two_events)
  = (Return {| body := sample_dumps (PDict [("error", PStr "Invalid JSON")]);
               status := 400;
               content_type := "application/json";
               headers := [] |}, sample_server two_events) /\
  handler sample_dumps delete_reset_request (sample_server two_events)
  = (Return {| body := sample_dumps (PDict [("error", PStr "Not found")]);
               status := 404;
               content_type := "application/json";
               headers := [] |}, sample_server two_events).
Proof.
  split.
  - apply (proj1 (malformed_and_unknown_requests_leave_state sample_dumps)).
    + split; [right; reflexivity | reflexivity].
    + reflexivity.
  - apply (proj2 (malformed_and_unknown_requests_leave_state sample_dumps)).
    repeat split.
    + intros [_ H]. discriminate H.
    + intros [_ H]. discriminate H.
    + intros [_ H]. discriminate H.
Defined.

Lemma exhausted_or_unhandled_gives_default_witness :
  exists env w' c1 c2 c3,
    create_default_response "Task completed." sample_world = (Return env, w') /\
    message_content (completion env) = Some (PStr "Task completed.") /\
    stream_chunks env = [c1; c2; c3] /\
    chunk_content c2 = Some (PStr "Task completed.") /\
    handler sample_dumps (chat_request true) (sample_server [observation_event])
    = (Return
         (if truthy (dict_get [("stream", PBool true)] "stream" (PBool false))
          then {| body := ("data: " ++ sample_dumps c1 ++ LF ++ LF)
                          ++ ("data: " ++ sample_dumps c2 ++ LF ++ LF)
                          ++ ("data: " ++ sample_dumps c3 ++ LF ++ LF)
                          ++ "data: [DONE]" ++ LF ++ LF;
                  status := 200;
                  content_type := "text/event-stream";
                  headers := [("Cache-Control", "no-cache");
                              ("Connection", "keep-alive")] |}
          else {| body := sample_dumps (completion env);
                  status := 200;
                  content_type := "application/json";
                  headers := [] |}),
       {| replay_state :=
            snd (get_next_response (new_replay_state [observation_event]));
          world := w' |}).
Proof.
  apply (exhausted_or_unhandled_gives_default sample_dumps (chat_request true)
           [("stream", PBool true)] (sample_server [observation_event])).
  - split; [left; reflexivity | reflexivity].
  - reflexivity.
  - right. exists observation_event.
    split; [reflexivity |]. split; intros H; discriminate H.
Defined.

Lemma envelope_id_consistent_witness :
  exists k,
    (uuid_drawn sample_world
     <= k < uuid_drawn (snd (convert_event action_event sample_world)))%nat /\
    envelope_shares_id (envelope_of (convert_event action_event sample_world))
      (completion_id_at sample_world k).
Proof.
  apply (proj2 envelope_id_consistent action_event sample_world).
  reflexivity.
Defined.

(** ** Concurrent callers *)

Section ConcurrentDraws.

Variable events : list TrajectoryEvent.
Variable m : nat.

(** The thread that steps, and the threads before and after it. *)
Lemma thread_split (ts : list pc) (i : nat) (p : pc) :
  ts !! i = Some p ->
  exists l1 l2,
    ts = (l1 ++ p :: l2)%list /\
    forall p', <[i := p']> ts = (l1 ++ p' :: l2)%list.
Proof.
  intros Hi. exists (take i ts), (drop (S i) ts). split.
  - symmetry. apply take_drop_middle. exact Hi.
  - intros p'. apply insert_take_drop. eapply lookup_lt_Some. exact Hi.
Qed.

Lemma critical_middle (l1 l2 : list pc) (p : pc) :
  critical (l1 ++ p :: l2)
  = (critical l1 + (if in_critical_section p then 1 else 0) + critical l2)%nat.
Proof.
  unfold critical. rewrite List.filter_app, length_app. cbn [List.filter].
  destruct (in_critical_section p); cbn [length]; lia.
Qed.

Lemma drawn_by_middle (l1 l2 : list pc) (p : pc) :
  drawn_by (l1 ++ p :: l2) = (drawn_by l1 ++ drawn p ++ drawn_by l2)%list.
Proof.
  unfold drawn_by. rewrite map_app, concat_app. reflexivity.
Qed.

Lemma drawn_length (p : pc) : (length (drawn p) <= 1)%nat.
Proof. destruct p as [| | | | | [[e |] | x] | [[e |] | x]]; simpl; lia. Qed.

Lemma drawn_by_length (ts : list pc) :
  (length (drawn_by ts) <= length ts)%nat.
Proof.
  induction ts as [| p ts IH]; [reflexivity |].
  unfold drawn_by in *. cbn [map concat length]. rewrite length_app.
  pose proof (drawn_length p). lia.
Qed.

(** A thread that has not drawn leaves an event for itself. *)
Lemma drawn_by_below (l1 l2 : list pc) (p : pc) :
  drawn p = [] ->
  (length (drawn_by (l1 ++ p :: l2)) < length (l1 ++ p :: l2))%nat.
Proof.
  intros Hp. rewrite drawn_by_middle, Hp, !length_app. cbn [length app].
  pose proof (drawn_by_length l1). pose proof (drawn_by_length l2). lia.
Qed.

(** Outside the lock a thread stands before the call or after the
    return, and what it knows does not depend on the cursor. *)
Lemma pc_ok_outside (l : list pc) (z z' : Z) :
  critical l = 0%nat ->
  Forall (pc_ok events z) l -> Forall (pc_ok events z') l.
Proof.
  induction l as [| p l IH]; intros Hc Hok; [constructor |].
  apply List.Forall_cons_iff in Hok as [Hp Hl].
  change (p :: l) with ([] ++ p :: l)%list in Hc.
  rewrite critical_middle in Hc.
  constructor.
  - destruct p; simpl in *; try lia; exact Hp.
  - apply IH; [lia | exact Hl].
Qed.

(** A step that leaves the shared object alone. *)
Lemma inv_local_step (sh : TrajectoryReplayState) (lk lk' : bool)
    (l1 l2 : list pc) (p p' : pc) :
  replay_inv events m {| shared := sh; locked := lk; threads := l1 ++ p :: l2 |} ->
  drawn p' = drawn p ->
  pc_ok events (current_index sh) p' ->
  ((if in_critical_section p' then 1 else 0) + (if lk then 1 else 0)
   = (if in_critical_section p then 1 else 0) + (if lk' then 1 else 0))%nat ->
  replay_inv events m {| shared := sh; locked := lk'; threads := l1 ++ p' :: l2 |}.
Proof.
  intros [Hr He Hlen Hlock Hcur Hdrawn Hpcs] Hsame Hok Hcount.
  cbn [shared locked threads] in *.
  rewrite critical_middle in Hlock.
  rewrite drawn_by_middle in Hcur, Hdrawn.
  apply Forall_app in Hpcs as [Hl1 Hl2].
  apply List.Forall_cons_iff in Hl2 as [_ Hl2].
  split; cbn [shared locked threads].
  - exact Hr.
  - exact He.
  - rewrite length_app in *. exact Hlen.
  - rewrite critical_middle. destruct lk, lk'; lia.
  - rewrite drawn_by_middle, Hsame. exact Hcur.
  - rewrite drawn_by_middle, Hsame. exact Hdrawn.
  - apply Forall_app. split; [exact Hl1 |]. constructor; assumption.
Qed.

(** The store of the new cursor hands the event over. *)
Lemma inv_store_step (sh : TrajectoryReplayState) (lk : bool)
    (l1 l2 : list pc) (response : TrajectoryEvent) (v : Z) :
  replay_inv events m
    {| shared := sh; locked := lk; threads := l1 ++ AtStore response v :: l2 |} ->
  replay_inv events m
    {| shared := set_current_index sh v; locked := lk;
       threads := l1 ++ AtExit (Return (Some response)) :: l2 |}.
Proof.
  intros [Hr He Hlen Hlock Hcur Hdrawn Hpcs].
  cbn [shared locked threads] in *.
  rewrite critical_middle in Hlock.
  rewrite drawn_by_middle in Hcur, Hdrawn.
  apply Forall_app in Hpcs as [Hl1 Hl2].
  apply List.Forall_cons_iff in Hl2 as [[Hnext ->] Hl2].
  cbn [drawn app in_critical_section] in *.
  rewrite Hcur, Nat2Z.id in Hnext.
  assert (critical l1 = 0%nat /\ critical l2 = 0%nat) as [Hc1 Hc2]
    by (destruct lk; lia).
  split; cbn [shared locked threads set_current_index responses current_index].
  - exact Hr.
  - exact He.
  - rewrite length_app in *. exact Hlen.
  - rewrite critical_middle. exact Hlock.
  - rewrite drawn_by_middle, Hcur, !length_app. cbn [drawn length]. lia.
  - rewrite drawn_by_middle. cbn [drawn app].
    replace (length (drawn_by l1 ++ response :: drawn_by l2))
      with (S (length (drawn_by l1 ++ drawn_by l2)))
      by (rewrite !length_app; cbn [length]; lia).
    rewrite (take_S_r _ _ _ Hnext).
    rewrite <- Permutation_middle, <- Permutation_cons_append.
    apply Permutation_cons; [reflexivity | exact Hdrawn].
  - apply Forall_app. split.
    + eapply pc_ok_outside; eassumption.
    + constructor; [exists response; reflexivity |].
      eapply pc_ok_outside; eassumption.
Qed.

Ltac solo_step Hat :=
  unfold thread_step at 1; unfold move; cbn [threads shared locked];
  rewrite ?list_insert_insert_eq; rewrite ?Hat.

(** The steps of one caller, taken together, are the method: a thread
    that finds the lock free and runs alone returns what
    [get_next_response] returns and leaves the state it leaves. *)
Lemma run_alone_is_get_next_response
    (st : TrajectoryReplayState) (ts : list pc) (i : nat) :
  ts !! i = Some AtWith ->
  run_alone 6 i {| shared := st; locked := false; threads := ts |}
  = {| shared := snd (get_next_response st); locked := false;
       threads := <[i := Finished (fst (get_next_response st))]> ts |}.
Proof.
  intros Hi. pose proof (lookup_lt_Some _ _ _ Hi) as Hlt.
  assert (Hat : forall p, <[i := p]> ts !! i = Some p)
    by (intros p; apply list_lookup_insert_eq; exact Hlt).
  unfold get_next_response, bind, get, lift_outcome, put, ret.
  cbn [run_alone]. solo_step Hat. rewrite Hi. solo_step Hat.
  destruct (current_index st >=? Z.of_nat (length (responses st))).
  - do 2 solo_step Hat. rewrite ?list_insert_insert_eq. reflexivity.
  - solo_step Hat.
    destruct (py_index (responses st) (current_index st)) as [response | e].
    + do 3 solo_step Hat. rewrite ?list_insert_insert_eq. reflexivity.
    + do 2 solo_step Hat. rewrite ?list_insert_insert_eq. reflexivity.
Qed.

(** Every step of every thread keeps the invariant. *)
Lemma thread_step_inv (i : nat) (c c' : Config) :
  replay_inv events m c -> thread_step i c = Some c' -> replay_inv events m c'.
Proof.
  destruct c as [sh lk ts]. intros Hinv Hstep.
  unfold thread_step, move in Hstep. cbn [shared locked threads] in Hstep.
  destruct (ts !! i) as [p |] eqn:Hi; [| discriminate].
  destruct (thread_split ts i p Hi) as (l1 & l2 & -> & Hins).
  assert (Hcur := inv_cursor _ _ _ Hinv).
  assert (Hr := inv_responses _ _ _ Hinv).
  assert (Hlen := inv_threads _ _ _ Hinv).
  assert (He := inv_enough _ _ _ Hinv).
  assert (Hlock := inv_lock _ _ _ Hinv).
  assert (Hp : pc_ok events (current_index sh) p).
  { pose proof (inv_pcs _ _ _ Hinv) as Hpcs. cbn [threads shared] in Hpcs.
    apply Forall_app in Hpcs as [_ Hpcs].
    apply List.Forall_cons_iff in Hpcs as [Hp _]. exact Hp. }
  cbn [shared locked threads] in Hcur, Hr, Hlen, Hlock.
  rewrite critical_middle in Hlock.
  assert (Hbelow : drawn p = [] ->
                   0 <= current_index sh < Z.of_nat (length (responses sh))).
  { intros Hd. pose proof (drawn_by_below l1 l2 p Hd). rewrite Hr. lia. }
  destruct p as [| | | response | response v | r | r].
  - (* [with self._lock:] *)
    destruct lk; [discriminate |]. injection Hstep as <-. rewrite Hins.
    eapply inv_local_step; [exact Hinv | reflexivity | exact I | reflexivity].
  - (* the test of the cursor *)
    specialize (Hbelow eq_refl).
    destruct (Z.geb_spec (current_index sh) (Z.of_nat (length (responses sh))));
      [lia |].
    injection Hstep as <-. rewrite Hins.
    eapply inv_local_step; [exact Hinv | reflexivity | exact I |].
    destruct lk; reflexivity.
  - (* the read of the event *)
    specialize (Hbelow eq_refl).
    destruct (py_index_in_range (responses sh) (current_index sh) Hbelow)
      as (response & Hnext & Hread).
    rewrite Hread in Hstep. injection Hstep as <-. rewrite Hins.
    eapply inv_local_step; [exact Hinv | reflexivity | | destruct lk; reflexivity].
    cbn [pc_ok]. rewrite <- Hr. exact Hnext.
  - (* the load of the cursor *)
    injection Hstep as <-. rewrite Hins.
    eapply inv_local_step; [exact Hinv | reflexivity | | destruct lk; reflexivity].
    cbn [pc_ok] in *. split; [exact Hp | reflexivity].
  - (* the store of the cursor *)
    injection Hstep as <-. rewrite Hins.
    apply inv_store_step. exact Hinv.
  - (* leaving the [with] block *)
    injection Hstep as <-. rewrite Hins.
    eapply inv_local_step; [exact Hinv | reflexivity | exact Hp |].
    cbn [in_critical_section] in *. destruct lk; lia.
  - discriminate.
Qed.

Lemma run_inv (schedule : list nat) :
  forall c c',
    replay_inv events m c -> run schedule c = Some c' -> replay_inv events m c'.
Proof.
  induction schedule as [| i schedule IH]; intros c c' Hinv Hrun.
  - injection Hrun as <-. exact Hinv.
  - cbn [run] in Hrun.
    destruct (thread_step i c) as [c1 |] eqn:Hstep; [| discriminate].
    eapply IH; [| exact Hrun]. eapply thread_step_inv; eassumption.
Qed.

Lemma critical_start (n : nat) : critical (replicate n AtWith) = 0%nat.
Proof. induction n as [| n IH]; [reflexivity | exact IH]. Qed.

Lemma drawn_by_start (n : nat) : drawn_by (replicate n AtWith) = [].
Proof. induction n as [| n IH]; [reflexivity | exact IH]. Qed.

Lemma start_config_inv :
  (m <= length events)%nat -> replay_inv events m (start_config events m).
Proof.
  intros He. split; cbn [start_config shared locked threads new_replay_state
                          responses current_index].
  - reflexivity.
  - exact He.
  - apply length_replicate.
  - apply critical_start.
  - rewrite drawn_by_start. reflexivity.
  - rewrite drawn_by_start. reflexivity.
  - apply Forall_forall. intros p Hp. apply elem_of_replicate in Hp as [-> _].
    exact I.
Qed.

(** Once every thread has returned, each holds the event it drew. *)
Lemma finished_threads_drawn (z : Z) (ts : list pc) :
  Forall (pc_ok events z) ts ->
  forallb is_finished ts = true ->
  ts = (fun e => Finished (Return (Some e))) <$> drawn_by ts.
Proof.
  induction 1 as [| p ts Hp _ IH]; [reflexivity |].
  cbn [forallb]. intros Hfin. apply andb_true_iff in Hfin as [Hp_fin Hts].
  destruct p as [| | | | | | r]; try discriminate.
  destruct Hp as [e ->].
  unfold drawn_by in *. cbn [map concat drawn app fmap list_fmap].
  f_equal. apply IH. exact Hts.
Qed.

(** With no more callers than events, the callers draw the first events
    of the list, each exactly once, whatever the interleaving. *)
Lemma concurrent_draws_first (schedule : list nat) (c : Config) :
  (m <= length events)%nat ->
  run schedule (start_config events m) = Some c ->
  all_finished c = true ->
  exists taken : list TrajectoryEvent,
    threads c = (fun e => Finished (Return (Some e))) <$> taken /\
    taken ≡ₚ take m events.
Proof.
  intros He Hrun Hfin.
  pose proof (run_inv schedule _ _ (start_config_inv He) Hrun) as Hinv.
  pose proof (finished_threads_drawn _ _ (inv_pcs _ _ _ Hinv) Hfin) as Hts.
  exists (drawn_by (threads c)). split; [exact Hts |].
  pose proof (inv_drawn _ _ _ Hinv) as Hperm.
  assert (length (drawn_by (threads c)) = m) as Hm.
  { rewrite <- (inv_threads _ _ _ Hinv). rewrite Hts at 2.
    rewrite length_fmap. reflexivity. }
  rewrite Hm in Hperm. exact Hperm.
Qed.

Lemma forallb_false_lookup {A : Type} (f : A -> bool) (l : list A) :
  forallb f l = false -> exists i x, l !! i = Some x /\ f x = false.
Proof.
  induction l as [| a l IH]; [discriminate |].
  cbn [forallb]. destruct (f a) eqn:Ha.
  - intros Hl. destruct (IH Hl) as (i & x & Hi & Hx). exists (S i), x.
    split; assumption.
  - intros _. exists 0%nat, a. split; [reflexivity | exact Ha].
Qed.

(** Progress: while a thread has not returned, some thread can step. *)
Lemma no_deadlock (c : Config) :
  replay_inv events m c ->
  all_finished c = false ->
  exists i c', thread_step i c = Some c'.
Proof.
  destruct c as [sh lk ts]. intros Hinv Hfin.
  pose proof (inv_lock _ _ _ Hinv) as Hlock. cbn [threads locked] in Hlock.
  unfold all_finished in Hfin. cbn [threads] in Hfin.
  assert (exists i p, ts !! i = Some p /\
                      if lk then in_critical_section p = true
                      else is_finished p = false) as (i & p & Hi & Hp).
  { destruct lk.
    - unfold critical in Hlock.
      destruct (List.filter in_critical_section ts) as [| p rest] eqn:Hf;
        [discriminate |].
      assert (In p (List.filter in_critical_section ts)) as Hin
        by (rewrite Hf; left; reflexivity).
      apply List.filter_In in Hin as [Hin Hcs].
      apply list_elem_of_In, list_elem_of_lookup in Hin as [i Hi].
      exists i, p. split; assumption.
    - apply forallb_false_lookup in Hfin. exact Hfin. }
  exists i.
  unfold thread_step, move. cbn [shared locked threads]. rewrite Hi.
  destruct p as [| | | response | response v | r | r]; try (eexists; reflexivity).
  - destruct lk; [discriminate | eexists; reflexivity].
  - destruct (current_index sh >=? Z.of_nat (length (responses sh)));
      eexists; reflexivity.
  - destruct (py_index (responses sh) (current_index sh)); eexists; reflexivity.
  - destruct lk; discriminate.
Qed.

Lemma total_steps_left_middle (l1 l2 : list pc) (p : pc) :
  total_steps_left (l1 ++ p :: l2)
  = (total_steps_left l1 + steps_left p + total_steps_left l2)%nat.
Proof.
  unfold total_steps_left. rewrite map_app, list_sum_app. simpl. lia.
Qed.

(** Every step uses up at least one of the steps that are left. *)
Lemma thread_step_decreases (i : nat) (c c' : Config) :
  thread_step i c = Some c' ->
  (total_steps_left (threads c') < total_steps_left (threads c))%nat.
Proof.
  destruct c as [sh lk ts]. unfold thread_step, move. cbn [shared locked threads].
  destruct (ts !! i) as [p |] eqn:Hi; [| discriminate].
  destruct (thread_split ts i p Hi) as (l1 & l2 & -> & Hins).
  destruct p as [| | | response | response v | r | r]; intros Hstep;
    repeat match type of Hstep with
           | (if ?b then _ else _) = Some _ => destruct b
           | match ?o with Return _ => _ | Raise _ => _ end = Some _ => destruct o
           end;
    try discriminate; injection Hstep as <-; cbn [threads];
    rewrite Hins, !total_steps_left_middle; cbn [steps_left]; lia.
Qed.

Lemma run_length (schedule : list nat) :
  forall c c',
    run schedule c = Some c' ->
    (length schedule + total_steps_left (threads c')
     <= total_steps_left (threads c))%nat.
Proof.
  induction schedule as [| i schedule IH]; intros c c' Hrun.
  - injection Hrun as <-. reflexivity.
  - cbn [run] in Hrun.
    destruct (thread_step i c) as [c1 |] eqn:Hstep; [| discriminate].
    apply thread_step_decreases in Hstep. apply IH in Hrun.
    cbn [length]. lia.
Qed.

Lemma total_steps_left_start (n : nat) :
  total_steps_left (replicate n AtWith) = (6 * n)%nat.
Proof.
  induction n as [| n IH]; [reflexivity |].
  unfold total_steps_left in *. simpl in *. rewrite IH. lia.
Qed.

End ConcurrentDraws.

(** C9: [M] threads that each call [get_next_response] once on a state of
    [M] events.  Every interleaving of their steps is finite (at most 6
    steps a thread); as long as a thread has not returned, some thread
    can step; and once all have returned, what they returned is the list
    of queued events up to order: every event exactly once, none twice
    and none left out. *)
Theorem concurrent_draws_are_a_permutation
    (events : list TrajectoryEvent) (schedule : list nat) (c : Config) :
  run schedule (start_config events (length events)) = Some c ->
  (length schedule <= 6 * length events)%nat /\
  (all_finished c = false -> exists i c', thread_step i c = Some c') /\
  (all_finished c = true ->
   exists taken : list TrajectoryEvent,
     threads c = (fun e => Finished (Return (Some e))) <$> taken /\
     taken ≡ₚ events).
Proof.
  intros Hrun. split; [| split].
  - pose proof (run_length schedule _ _ Hrun) as Hlen.
    cbn [start_config threads] in Hlen.
    rewrite total_steps_left_start in Hlen. lia.
  - apply (no_deadlock events (length events)).
    eapply run_inv; [| exact Hrun]. apply start_config_inv. reflexivity.
  - intros Hfin.
    destruct (concurrent_draws_first events (length events) schedule c
                ltac:(reflexivity) Hrun Hfin) as (taken & Hts & Hperm).
    exists taken. split; [exact Hts |].
    rewrite take_ge in Hperm by reflexivity. exact Hperm.
Qed.

Lemma concurrent_draws_are_a_permutation_witness :
  exists c,
    run second_thread_first (start_config two_events (length two_events)) = Some c /\
    all_finished c = true /\
    exists taken : list TrajectoryEvent,
      threads c = (fun e => Finished (Return (Some e))) <$> taken /\
      taken ≡ₚ two_events.
Proof.
  eexists. split; [reflexivity |]. split; [reflexivity |].
  apply (concurrent_draws_are_a_permutation two_events second_thread_first);
    reflexivity.
Defined.

(** * Further properties of the module *)

(** ** Message chunks *)

(** X1: [build_message_chunks] returns exactly 3 chunks with the id it was
    given: the 1st opens the turn with the role and an empty content, the
    2nd carries the whole text, the 3rd is empty and alone carries the
    finish reason; the clock is read once a chunk. *)
Theorem build_message_chunks_shape (completion_id content finish_reason : string)
    (w : World) :
  exists c1 c2 c3 w',
    build_message_chunks completion_id content finish_reason w
    = (Return [c1; c2; c3], w') /\
    chunk_delta c1 = Some (PDict [("role", PStr "assistant"); ("content", PStr "")]) /\
    chunk_delta c2 = Some (PDict [("content", PStr content)]) /\
    chunk_delta c3 = Some (PDict []) /\
    chunk_finish_reason c1 = Some PNone /\
    chunk_finish_reason c2 = Some PNone /\
    chunk_finish_reason c3 = Some (PStr finish_reason) /\
    Forall (fun c => item c "id" = Some (PStr completion_id)) [c1; c2; c3] /\
    clock_read w' = (3 + clock_read w)%nat /\
    uuid_drawn w' = uuid_drawn w.
Proof.
  run_world. do 4 eexists. split; [reflexivity |].
  repeat split. repeat constructor.
Qed.

(** ** What the converter puts in an envelope *)

(** X2: A message event whose text can be extracted gives an envelope that
    says the same in both shapes: the completion's message content and
    the content of the 2nd chunk are the extracted text, and the
    completion and the 3rd chunk finish with ["stop"]. *)
Theorem message_event_envelope (ev : TrajectoryEvent) (msg : pydict)
    (text : string) (w : World) :
  kind ev = "MessageEvent" ->
  llm_message ev = Some msg ->
  msg <> [] ->
  _extract_content msg = Return text ->
  exists env w' c1 c2 c3,
    convert_event ev w = (Return env, w') /\
    stream_chunks env = [c1; c2; c3] /\
    message_content (completion env) = Some (PStr text) /\
    completion_finish_reason (completion env) = Some (PStr "stop") /\
    chunk_content c1 = Some (PStr "") /\
    chunk_content c2 = Some (PStr text) /\
    chunk_finish_reason c3 = Some (PStr "stop") /\
    uuid_drawn w' = S (uuid_drawn w).
Proof.
  intros Hkind Hmsg Hne Htext. unfold convert_event, _create_message_response.
  rewrite Hkind, Hmsg. destruct msg as [| entry msg]; [contradiction |].
  cbn [String.eqb Ascii.eqb Bool.eqb andb dict_present].
  run_world. rewrite Htext. do 5 eexists. split; [reflexivity |].
  repeat split.
Qed.

(** X3: An action event with a non-empty tool call gives an envelope that
    says the same in both shapes.  The id, name and arguments are those
    of the tool call, each with its fallback: an id made of the first
    identifier drawn, the event's [tool_name] or ["unknown"], and ["{}"].
    The completion holds the whole call; the 1st chunk holds the id and
    the name with empty arguments, the 2nd the arguments; both finish
    with ["tool_calls"].  Two identifiers are drawn whether or not the
    tool call has an id, and the completion id is made of the second. *)
Theorem tool_call_event_envelope (ev : TrajectoryEvent) (tc : pydict) (w : World) :
  kind ev = "ActionEvent" ->
  tool_call ev = Some tc ->
  tc <> [] ->
  let id := dict_get tc "id" (PStr ("call_" ++ first24 (uuid_source w (uuid_drawn w)))) in
  let name :=
    dict_get tc "name"
      (PStr match tool_name ev with
            | Some n => if String.eqb n "" then "unknown" else n
            | None => "unknown"
            end) in
  let arguments := dict_get tc "arguments" (PStr "{}") in
  exists env w' c1 c2 c3 call call1 call2,
    convert_event ev w = (Return env, w') /\
    stream_chunks env = [c1; c2; c3] /\
    uuid_drawn w' = S (S (uuid_drawn w)) /\
    envelope_shares_id env (completion_id_at w (S (uuid_drawn w))) /\
    message_content (completion env) = Some PNone /\
    completion_finish_reason (completion env) = Some (PStr "tool_calls") /\
    first_tool_call (completion env) = Some call /\
    item call "id" = Some id /\
    item call "type" = Some (PStr "function") /\
    function_field call "name" = Some name /\
    function_field call "arguments" = Some arguments /\
    chunk_tool_call c1 = Some call1 /\
    item call1 "id" = Some id /\
    function_field call1 "name" = Some name /\
    function_field call1 "arguments" = Some (PStr "") /\
    chunk_tool_call c2 = Some call2 /\
    function_field call2 "arguments" = Some arguments /\
    chunk_finish_reason c3 = Some (PStr "tool_calls").
Proof.
  intros Hkind Htc Hne. cbv zeta.
  unfold convert_event, _create_tool_call_response, tool_name_or_unknown.
  rewrite Hkind, Htc. destruct tc as [| entry tc]; [contradiction |].
  cbn [String.eqb Ascii.eqb Bool.eqb andb dict_present].
  run_world. do 8 eexists. split; [reflexivity |].
  split; [reflexivity |]. split; [reflexivity |]. split; [shares_id |].
  repeat split.
Qed.

Lemma tool_call_event_envelope_witness :
  exists env w' c1 c2 c3 call call1 call2,
    convert_event action_event sample_world = (Return env, w') /\
    stream_chunks env = [c1; c2; c3] /\
    uuid_drawn w' = 2%nat /\
    envelope_shares_id env (completion_id_at sample_world 1) /\
    message_content (completion env) = Some PNone /\
    completion_finish_reason (completion env) = Some (PStr "tool_calls") /\
    first_tool_call (completion env) = Some call /\
    item call "id" = Some (PStr "call_1") /\
    item call "type" = Some (PStr "function") /\
    function_field call "name" = Some (PStr "terminal") /\
    function_field call "arguments" = Some (PStr "{}") /\
    chunk_tool_call c1 = Some call1 /\
    item call1 "id" = Some (PStr "call_1") /\
    function_field call1 "name" = Some (PStr "terminal") /\
    function_field call1 "arguments" = Some (PStr "") /\
    chunk_tool_call c2 = Some call2 /\
    function_field call2 "arguments" = Some (PStr "{}") /\
    chunk_finish_reason c3 = Some (PStr "tool_calls").
Proof.
  apply (tool_call_event_envelope action_event
           [("id", PStr "call_1"); ("name", PStr "terminal");
            ("arguments", PStr "{}")] sample_world).
  - reflexivity.
  - reflexivity.
  - discriminate.
Defined.

Lemma message_event_envelope_witness :
  exists env w' c1 c2 c3,
    convert_event message_event sample_world = (Return env, w') /\
    stream_chunks env = [c1; c2; c3] /\
    message_content (completion env) = Some (PStr "Hello, world") /\
    completion_finish_reason (completion env) = Some (PStr "stop") /\
    chunk_content c1 = Some (PStr "") /\
    chunk_content c2 = Some (PStr "Hello, world") /\
    chunk_finish_reason c3 = Some (PStr "stop") /\
    uuid_drawn w' = 1%nat.
Proof.
  apply (message_event_envelope message_event sample_message "Hello, world"
           sample_world).
  - reflexivity.
  - reflexivity.
  - discriminate.
  - reflexivity.
Defined.

(** X4: The converter looks at the kind first and takes an empty dictionary
    for an absent one: an action event whose tool call is [None] or [{}]
    and a message event whose message is [None] or [{}] get the default
    response, whatever else the event carries. *)
Theorem convert_event_absent_payload (ev : TrajectoryEvent) (w : World) :
  (kind ev = "ActionEvent" /\ (tool_call ev = None \/ tool_call ev = Some [])) \/
  (kind ev = "MessageEvent" /\ (llm_message ev = None \/ llm_message ev = Some [])) ->
  convert_event ev w = create_default_response "Task completed." w /\
  exists env w',
    convert_event ev w = (Return env, w') /\
    message_content (completion env) = Some (PStr "Task completed.").
Proof.
  intros Hcase.
  assert (convert_event ev w = create_default_response "Task completed." w) as Heq.
  { unfold convert_event, _create_tool_call_response, _create_message_response.
    destruct Hcase as [[Hkind [Hp | Hp]] | [Hkind [Hp | Hp]]];
      rewrite Hkind, Hp; reflexivity. }
  split; [exact Heq |]. rewrite Heq.
  destruct (create_default_response_run "Task completed." w)
    as (env & w' & Hrun & _ & _ & Hcontent).
  exists env, w'. split; assumption.
Qed.

Lemma convert_event_absent_payload_witness :
  convert_event action_without_call sample_world
  = create_default_response "Task completed." sample_world /\
  exists env w',
    convert_event action_without_call sample_world = (Return env, w') /\
    message_content (completion env) = Some (PStr "Task completed.").
Proof.
  apply (convert_event_absent_payload action_without_call sample_world).
  left. split; [reflexivity | right; reflexivity].
Defined.

Ltac finishes_alike reason :=
  do 3 eexists; exists reason;
  split; [reflexivity |]; split; [auto |]; repeat split.

(** X5: Whatever the event, the envelope the converter returns finishes the
    same way in both shapes, with ["stop"] or ["tool_calls"], only in the
    3rd chunk, and its completion reports the model ["mock-llm"] and the
    fixed usage of 100, 50 and 150 tokens. *)
Theorem convert_event_finishes_alike (ev : TrajectoryEvent) (w : World)
    (env : Envelope) (w' : World) :
  convert_event ev w = (Return env, w') ->
  envelope_finishes_alike env.
Proof.
  unfold convert_event, _create_tool_call_response, _create_message_response.
  destruct (String.eqb (kind ev) "ActionEvent" && dict_present (tool_call ev)).
  - destruct (tool_call ev) as [[| entry tc] |]; run_world; intros [= <- <-].
    + finishes_alike "stop".
    + finishes_alike "tool_calls".
    + finishes_alike "stop".
  - destruct (String.eqb (kind ev) "MessageEvent" && dict_present (llm_message ev)).
    + destruct (llm_message ev) as [[| entry msg] |]; run_world.
      * intros [= <- <-]. finishes_alike "stop".
      * destruct (_extract_content (entry :: msg)); [| discriminate].
        intros [= <- <-]. finishes_alike "stop".
      * intros [= <- <-]. finishes_alike "stop".
    + run_world. intros [= <- <-]. finishes_alike "stop".
Qed.

Lemma convert_event_finishes_alike_witness :
  envelope_finishes_alike (envelope_of (convert_event action_event sample_world)).
Proof.
  apply (convert_event_finishes_alike action_event sample_world _
           (snd (convert_event action_event sample_world))).
  reflexivity.
Defined.

(** ** Text extraction at the edges *)

Lemma filter_untagged_nil (blocks : list pyval) :
  Forall (fun b => ~ tagged_text b) blocks ->
  List.filter is_text_block blocks = [].
Proof.
  induction 1 as [| b blocks Hb _ IH]; [reflexivity |].
  cbn [List.filter]. destruct (is_text_block b) eqn:Htag; [| exact IH].
  apply is_text_block_tagged in Htag. contradiction.
Qed.

(** X6: [_extract_content] gives the empty string when the message has no
    ["content"] key, when the content is neither a string nor a list
    ([None], a number, a dictionary), and when it is a list in which no
    block is tagged ["text"], the empty list included. *)
Theorem extract_content_empty :
  (forall llm_message,
     dict_lookup llm_message "content" = None ->
     _extract_content llm_message = Return "") /\
  (forall llm_message v,
     dict_lookup llm_message "content" = Some v ->
     (forall s, v <> PStr s) -> (forall blocks, v <> PList blocks) ->
     _extract_content llm_message = Return "") /\
  (forall llm_message blocks,
     dict_lookup llm_message "content" = Some (PList blocks) ->
     Forall (fun b => ~ tagged_text b) blocks ->
     _extract_content llm_message = Return "").
Proof.
  unfold _extract_content, dict_get. repeat split.
  - intros m ->. reflexivity.
  - intros m v -> Hs Hl. destruct v; try reflexivity.
    + exfalso. eapply Hs. reflexivity.
    + exfalso. eapply Hl. reflexivity.
  - intros m blocks -> Hnone. rewrite (filter_untagged_nil blocks Hnone). reflexivity.
Qed.

Lemma extract_content_empty_witness :
  _extract_content [("role", PStr "assistant")] = Return "" /\
  _extract_content [("content", PNone)] = Return "" /\
  _extract_content [("content", PList [PStr "raw"; PDict [("type", PStr "image")]])]
  = Return "".
Proof.
  split; [| split].
  - apply (proj1 extract_content_empty). reflexivity.
  - apply (proj1 (proj2 extract_content_empty) _ PNone);
      [reflexivity | discriminate | discriminate].
  - apply (proj2 (proj2 extract_content_empty) _
             [PStr "raw"; PDict [("type", PStr "image")]]); [reflexivity |].
    apply List.Forall_cons; [intros (d & H & _); discriminate H |].
    apply List.Forall_cons; [intros (d & [= <-] & H); discriminate H |].
    apply List.Forall_nil.
Defined.

Lemma str_join_only_type_error (parts : list pyval) (e : exn) :
  str_join parts = Raise e -> e = TypeError.
Proof.
  induction parts as [| p parts IH]; [discriminate |].
  cbn [str_join]. destruct p; try (intros [= <-]; reflexivity).
  destruct (str_join parts); [discriminate |].
  intros [= <-]. apply IH. reflexivity.
Qed.

Lemma str_join_text_blocks_raises (blocks : list pyval) :
  ~ Forall text_block_ok blocks ->
  str_join (map block_text (List.filter is_text_block blocks)) = Raise TypeError.
Proof.
  induction blocks as [| b blocks IH]; intros Hbad.
  - exfalso. apply Hbad. constructor.
  - cbn [List.filter].
    destruct (is_text_block b) eqn:Htag.
    + apply is_text_block_tagged in Htag as (d & -> & Ht).
      cbn [map block_text str_join]. unfold dict_get.
      destruct (dict_lookup d "text") as [[| | | t | |] |] eqn:Htext;
        try reflexivity.
      * rewrite IH; [reflexivity |]. intros Hrest. apply Hbad.
        constructor; [| exact Hrest]. intros _. right. exists t. exact Htext.
      * rewrite IH; [reflexivity |]. intros Hrest. apply Hbad.
        constructor; [| exact Hrest]. intros _. left. exact Htext.
    + apply IH. intros Hrest. apply Hbad. constructor; [| exact Hrest].
      destruct b as [| | | | | d]; try exact I.
      intros Ht. exfalso.
      assert (is_text_block (PDict d) = true) as Hyes
        by (apply is_text_block_tagged; exists d; split; [reflexivity | exact Ht]).
      congruence.
Qed.

(** X7: For a list content, [_extract_content] raises exactly when some block
    tagged ["text"] holds something that is not a string under ["text"],
    and what it raises is [TypeError]; no message makes it raise
    anything else. *)
Theorem extract_content_raises_iff (llm_message : pydict) :
  (forall e, _extract_content llm_message = Raise e -> e = TypeError) /\
  (forall blocks,
     dict_lookup llm_message "content" = Some (PList blocks) ->
     (_extract_content llm_message = Raise TypeError
      <-> ~ Forall text_block_ok blocks)).
Proof.
  unfold _extract_content, dict_get. split.
  - intros e. destruct (dict_lookup llm_message "content") as [[| | | s | blocks |] |];
      try discriminate.
    apply str_join_only_type_error.
  - intros blocks ->. split.
    + intros Hraise Hok. rewrite (str_join_text_blocks blocks Hok) in Hraise.
      discriminate.
    + apply str_join_text_blocks_raises.
Qed.

Lemma extract_content_raises_iff_witness :
  _extract_content
    [("content", PList [PDict [("type", PStr "text"); ("text", PNone)]])]
  = Raise TypeError.
Proof.
  apply (proj2 (extract_content_raises_iff
                  [("content", PList [PDict [("type", PStr "text"); ("text", PNone)]])])
           [PDict [("type", PStr "text"); ("text", PNone)]] eq_refl).
  intros Hok. apply List.Forall_cons_iff in Hok as [Hb _].
  destruct (Hb eq_refl) as [H | [t H]]; discriminate H.
Defined.

(** ** The cursor outside its range *)

(** X8: After [reset], from any state (a cursor out of range included), [n]
    calls of [get_next_response] replay the list from its first event. *)
Theorem reset_restarts_replay (st : TrajectoryReplayState) (n : nat) :
  fst (reset st) = Return tt /\
  draw_n n (snd (reset st))
  = (Return ((Some <$> take n (responses st))
             ++ replicate (n - length (responses st)) None)%list,
     {| responses := responses st;
        current_index := Z.of_nat (Nat.min n (length (responses st))) |}).
Proof.
  split; [reflexivity |].
  pose proof (draw_n_from n (responses st) 0 ltac:(lia)) as H.
  rewrite drop_0, Nat.sub_0_r in H. exact H.
Qed.

(** X9: The dataclass takes any integer for [current_index].  With a
    negative cursor, [get_next_response] indexes from the end of the
    list: it returns [responses[len + cursor]] and adds 1 to the cursor
    as long as [-len <= cursor]; below that it raises [IndexError] and
    leaves the cursor where it was. *)
Theorem get_next_response_negative_cursor (st : TrajectoryReplayState) :
  current_index st < 0 ->
  let n := Z.of_nat (length (responses st)) in
  (- n <= current_index st ->
   exists e,
     responses st !! Z.to_nat (current_index st + n) = Some e /\
     get_next_response st
     = (Return (Some e), set_current_index st (current_index st + 1))) /\
  (current_index st < - n ->
   get_next_response st = (Raise IndexError, st)).
Proof.
  intros Hneg. cbv zeta.
  unfold get_next_response, bind, get, lift_outcome, put, ret, py_index.
  destruct (Z.geb_spec (current_index st) (Z.of_nat (length (responses st))));
    [lia |].
  destruct (Z.ltb_spec (current_index st) 0); [| lia].
  split.
  - intros Hlo.
    destruct (Z.ltb_spec (current_index st + Z.of_nat (length (responses st))) 0);
      [lia |].
    destruct (Z.leb_spec (Z.of_nat (length (responses st)))
                (current_index st + Z.of_nat (length (responses st)))); [lia |].
    cbn [orb].
    destruct (responses st !! Z.to_nat
                (current_index st + Z.of_nat (length (responses st))))
      as [e |] eqn:He.
    + exists e. split; reflexivity.
    + apply lookup_ge_None in He. lia.
  - intros Hlo.
    destruct (Z.ltb_spec (current_index st + Z.of_nat (length (responses st))) 0);
      [| lia].
    reflexivity.
Qed.

Lemma get_next_response_negative_cursor_witness :
  (exists e,
     two_events !! Z.to_nat (-1 + 2) = Some e /\
     get_next_response {| responses := two_events; current_index := -1 |}
     = (Return (Some e), {| responses := two_events; current_index := -1 + 1 |})) /\
  get_next_response {| responses := two_events; current_index := -3 |}
  = (Raise IndexError, {| responses := two_events; current_index := -3 |}).
Proof.
  split.
  - apply (proj1 (get_next_response_negative_cursor
                    {| responses := two_events; current_index := -1 |}
                    ltac:(reflexivity))).
    cbn. lia.
  - apply (proj2 (get_next_response_negative_cursor
                    {| responses := two_events; current_index := -3 |}
                    ltac:(reflexivity))).
    cbn. lia.
Defined.

(** ** The routes of the handler *)

Section HandlerRoutes.

Variable json_dumps : pyval -> string.

Lemma handler_health (request : Request) (s : Server) :
  is_health_get request ->
  handler json_dumps request s
  = (Return (health_response json_dumps
               (Z.of_nat (length (responses (replay_state s)))
                - current_index (replay_state s))), s).
Proof.
  destruct request as [p m d]. unfold is_health_get. cbn [path method].
  intros [[-> | ->] ->]; reflexivity.
Qed.

Lemma handler_reset (request : Request) (s : Server) :
  is_reset_get request ->
  handler json_dumps request s
  = (Return (reset_response json_dumps),
     {| replay_state := set_current_index (replay_state s) 0; world := world s |}).
Proof.
  destruct request as [p m d]. unfold is_reset_get. cbn [path method].
  intros [-> ->]. reflexivity.
Qed.

Lemma handler_chat_object (request : Request) (d : pydict) (s : Server) :
  is_chat_post request ->
  data request = Loaded (PDict d) ->
  handler json_dumps request s = chat_outcome json_dumps d s.
Proof.
  intros Hchat Hdata. rewrite (handler_chat_post json_dumps request Hchat), Hdata.
  unfold chat_outcome, bind, lift_outcome, py_get, on_replay, on_world, ret.
  destruct (get_next_response (replay_state s)) as [[[ev |] | e] st'];
    cbn [world replay_state]; try reflexivity.
  - destruct (convert_event ev (world s)) as [[env | e] w']; [| reflexivity].
    destruct (truthy (dict_get d "stream" (PBool false))); reflexivity.
  - unfold default_content.
    destruct (create_default_response "Task completed." (world s))
      as [[env | e] w']; [| reflexivity].
    destruct (truthy (dict_get d "stream" (PBool false))); reflexivity.
Qed.

Lemma health_get_dec (request : Request) :
  is_health_get request \/ ~ is_health_get request.
Proof.
  unfold is_health_get.
  destruct (String.eqb_spec (method request) "GET");
    destruct (String.eqb_spec (path request) "/health");
    destruct (String.eqb_spec (path request) "/"); tauto.
Qed.

Lemma reset_get_dec (request : Request) :
  is_reset_get request \/ ~ is_reset_get request.
Proof.
  unfold is_reset_get.
  destruct (String.eqb_spec (method request) "GET");
    destruct (String.eqb_spec (path request) "/reset"); tauto.
Qed.

Lemma chat_post_dec (request : Request) :
  is_chat_post request \/ ~ is_chat_post request.
Proof.
  unfold is_chat_post.
  destruct (String.eqb_spec (method request) "POST");
    destruct (String.eqb_spec (path request) "/chat/completions");
    destruct (String.eqb_spec (path request) "/v1/chat/completions"); tauto.
Qed.

Lemma health_not_reset (request : Request) :
  is_health_get request -> ~ is_reset_get request.
Proof.
  intros [[Hp | Hp] _] [Hp' _]; rewrite Hp in Hp'; discriminate Hp'.
Qed.

Lemma get_not_chat (request : Request) :
  method request = "GET" -> ~ is_chat_post request.
Proof. intros Hm [_ Hm']. rewrite Hm in Hm'. discriminate Hm'. Qed.

(** The routes exclude one another: a request is a health check, a
    reset, a chat completion, or matches no route. *)
Lemma handler_cases (request : Request) :
  (is_health_get request /\ ~ is_reset_get request /\ ~ is_chat_post request) \/
  (is_reset_get request /\ ~ is_health_get request /\ ~ is_chat_post request) \/
  (is_chat_post request /\ ~ is_health_get request /\ ~ is_reset_get request) \/
  unrecognized request /\ ~ is_health_get request /\ ~ is_reset_get request.
Proof.
  destruct (health_get_dec request) as [Hh | Hh].
  { left. split; [exact Hh |]. split; [apply health_not_reset; exact Hh |].
    apply get_not_chat. apply Hh. }
  destruct (reset_get_dec request) as [Hr | Hr].
  { right. left. split; [exact Hr |]. split; [exact Hh |].
    apply get_not_chat. apply Hr. }
  destruct (chat_post_dec request) as [Hc | Hc].
  { right. right. left. split; [exact Hc |]. split; assumption. }
  right. right. right. unfold unrecognized, is_health_get, is_reset_get in *. tauto.
Qed.

Lemma get_next_response_keeps (st : TrajectoryReplayState) :
  responses (snd (get_next_response st)) = responses st /\
  (cursor_in_range st -> cursor_in_range (snd (get_next_response st))) /\
  (cursor_in_range st ->
   Z.of_nat (length (responses st)) - current_index (snd (get_next_response st))
   = Z.max 0 (Z.of_nat (length (responses st)) - current_index st - 1)).
Proof.
  unfold cursor_in_range.
  destruct (Z.ltb_spec (current_index st) (Z.of_nat (length (responses st))))
    as [Hlt | Hge].
  - destruct (Z.ltb_spec (current_index st) 0) as [Hneg | Hpos].
    + split; [| split; intros; lia].
      unfold get_next_response, bind, get, lift_outcome, put, ret.
      destruct (current_index st >=? Z.of_nat (length (responses st)));
        [reflexivity |].
      destruct (py_index (responses st) (current_index st)); reflexivity.
    + destruct (get_next_response_draw st) as (e & _ & ->); [lia |].
      cbn [snd set_current_index responses current_index].
      split; [reflexivity |]. split; intros; lia.
  - rewrite get_next_response_exhausted by lia. cbn [snd].
    split; [reflexivity |]. split; intros; lia.
Qed.

Lemma chat_outcome_replay (d : pydict) (s : Server) :
  replay_state (snd (chat_outcome json_dumps d s))
  = snd (get_next_response (replay_state s)).
Proof.
  unfold chat_outcome.
  destruct (get_next_response (replay_state s)) as [[[ev |] | e] st'];
    cbn [snd]; try reflexivity.
  destruct (convert_event ev (world s)) as [[env | e] w']; reflexivity.
Qed.

(** X10: What a request does to the replay state: [GET /reset] sets the
    cursor to 0, a chat-completions POST whose body is an object makes
    exactly one draw (also when the conversion of the event then raises),
    and every other request leaves the state as it is. *)
Theorem handler_replay_effect (request : Request) (s : Server) :
  (is_reset_get request ->
   replay_state (snd (handler json_dumps request s))
   = set_current_index (replay_state s) 0) /\
  (forall d, is_chat_post request -> data request = Loaded (PDict d) ->
   replay_state (snd (handler json_dumps request s))
   = snd (get_next_response (replay_state s))) /\
  (~ is_reset_get request ->
   ~ (is_chat_post request /\ exists d, data request = Loaded (PDict d)) ->
   snd (handler json_dumps request s) = s).
Proof.
  split; [| split].
  - intros Hr. rewrite (handler_reset request s Hr). reflexivity.
  - intros d Hc Hd. rewrite (handler_chat_object request d s Hc Hd).
    apply chat_outcome_replay.
  - intros Hnr Hnc.
    destruct (handler_cases request)
      as [(Hh & _) | [(Hr & _) | [(Hc & _) | (Hu & _)]]].
    + rewrite (handler_health request s Hh). reflexivity.
    + contradiction.
    + destruct (data request) as [v | | e] eqn:Hd.
      * destruct v as [| | | | | d];
          try (rewrite (handler_non_object_body json_dumps request _ s Hc Hd);
               [reflexivity | discriminate]).
        exfalso. apply Hnc. split; [exact Hc |]. exists d. reflexivity.
      * rewrite (handler_chat_post json_dumps request Hc), Hd. reflexivity.
      * rewrite (handler_chat_post json_dumps request Hc), Hd. reflexivity.
    + rewrite (handler_unrecognized json_dumps request Hu). reflexivity.
Qed.

(** X11: No request changes the list of events, and no request takes the
    cursor out of its range, whatever the route, the body and the
    outcome. *)
Theorem handler_keeps_cursor_in_range (request : Request) (s : Server) :
  responses (replay_state (snd (handler json_dumps request s)))
  = responses (replay_state s) /\
  (cursor_in_range (replay_state s) ->
   cursor_in_range (replay_state (snd (handler json_dumps request s)))).
Proof.
  destruct (reset_get_dec request) as [Hr | Hnr].
  { rewrite (handler_reset request s Hr). cbn [snd replay_state].
    unfold cursor_in_range. cbn. split; [reflexivity | lia]. }
  destruct (chat_post_dec request) as [Hc | Hnc].
  - destruct (data request) as [v | | e] eqn:Hd.
    + destruct v as [| | | | | d];
        try (rewrite (handler_non_object_body json_dumps request _ s Hc Hd);
             [split; [reflexivity | tauto] | discriminate]).
      rewrite (handler_chat_object request d s Hc Hd), chat_outcome_replay.
      pose proof (get_next_response_keeps (replay_state s)). tauto.
    + rewrite (handler_chat_post json_dumps request Hc), Hd.
      split; [reflexivity | tauto].
    + rewrite (handler_chat_post json_dumps request Hc), Hd.
      split; [reflexivity | tauto].
  - destruct (handler_cases request)
      as [(Hh & _) | [(Hr & _) | [(Hc & _) | (Hu & _)]]]; try contradiction.
    + rewrite (handler_health request s Hh). split; [reflexivity | tauto].
    + rewrite (handler_unrecognized json_dumps request Hu).
      split; [reflexivity | tauto].
Qed.

(** X12: The health check answers 200 with the JSON of [{"status": "ok",
    "server": "mock-llm-trajectory", "responses_remaining": len(responses)
    - current_index}] and changes nothing; asked right after a
    chat-completions request whose body is an object, it reports one
    less, and 0 when the trajectory was already exhausted. *)
Theorem health_counts_draws (check chat : Request) (d : pydict) (s : Server) :
  is_health_get check ->
  is_chat_post chat ->
  data chat = Loaded (PDict d) ->
  cursor_in_range (replay_state s) ->
  let remaining := Z.of_nat (length (responses (replay_state s)))
                   - current_index (replay_state s) in
  handler json_dumps check s
  = (Return {| body := json_dumps
                         (PDict [("status", PStr "ok");
                                 ("server", PStr "mock-llm-trajectory");
                                 ("responses_remaining", PInt remaining)]);
               status := 200;
               content_type := "application/json";
               headers := [] |}, s) /\
  fst (handler json_dumps check (snd (handler json_dumps chat s)))
  = Return {| body := json_dumps
                        (PDict [("status", PStr "ok");
                                ("server", PStr "mock-llm-trajectory");
                                ("responses_remaining",
                                 PInt (Z.max 0 (remaining - 1)))]);
              status := 200;
              content_type := "application/json";
              headers := [] |}.
Proof.
  intros Hh Hc Hd Hin. cbv zeta.
  split; [apply handler_health; exact Hh |].
  rewrite (handler_health check _ Hh). cbn [fst].
  rewrite (handler_chat_object chat d s Hc Hd), chat_outcome_replay.
  destruct (get_next_response_keeps (replay_state s)) as (Hresp & _ & Hrem).
  rewrite Hresp, (Hrem Hin). reflexivity.
Qed.

(** X13: [GET /reset] answers 200 with [{"status": "reset"}], draws no
    identifier and reads no clock, and rewinds the replay from any
    state: the health check then reports the whole list, and the next
    draw returns the first event ([None] for an empty list). *)
Theorem reset_route_rewinds (request check : Request) (s : Server) :
  is_reset_get request ->
  is_health_get check ->
  handler json_dumps request s
  = (Return {| body := json_dumps (PDict [("status", PStr "reset")]);
               status := 200;
               content_type := "application/json";
               headers := [] |},
     {| replay_state := new_replay_state (responses (replay_state s));
        world := world s |}) /\
  fst (handler json_dumps check (snd (handler json_dumps request s)))
  = Return (health_response json_dumps
              (Z.of_nat (length (responses (replay_state s))))) /\
  fst (get_next_response (replay_state (snd (handler json_dumps request s))))
  = Return (head (responses (replay_state s))).
Proof.
  intros Hr Hh. rewrite (handler_reset request s Hr).
  split; [reflexivity |]. split.
  - rewrite (handler_health check _ Hh). cbn. rewrite Z.sub_0_r. reflexivity.
  - cbn [snd replay_state].
    destruct (responses (replay_state s)) as [| e rest] eqn:He.
    + unfold get_next_response, bind, get, ret, set_current_index.
      cbn. rewrite He. reflexivity.
    + destruct (get_next_response_draw (set_current_index (replay_state s) 0))
        as (e' & Hl & ->).
      * cbn. rewrite He. cbn [length]. lia.
      * cbn in Hl. rewrite He in Hl. injection Hl as <-. reflexivity.
Qed.

End HandlerRoutes.

(** ** The chat-completions route *)

Lemma extract_content_returns (msg : pydict) :
  (forall blocks, dict_lookup msg "content" = Some (PList blocks) ->
                  Forall text_block_ok blocks) ->
  exists text, _extract_content msg = Return text.
Proof.
  intros Hok. unfold _extract_content, dict_get.
  destruct (dict_lookup msg "content") as [[| | | t | blocks |] |];
    try (eexists; reflexivity).
  exists (text_of_blocks blocks). apply str_join_text_blocks. apply Hok. reflexivity.
Qed.

Lemma convert_event_returns (ev : TrajectoryEvent) (w : World) :
  event_text_ok ev -> exists env w', convert_event ev w = (Return env, w').
Proof.
  intros Hok. unfold convert_event.
  destruct (String.eqb (kind ev) "ActionEvent" && dict_present (tool_call ev)).
  { destruct (_create_tool_call_response_run ev w) as (env & w' & _ & Hrun & _).
    exists env, w'. exact Hrun. }
  destruct (String.eqb_spec (kind ev) "MessageEvent") as [Hkind | _];
    cbn [andb].
  - unfold _create_message_response.
    destruct (llm_message ev) as [[| entry msg] |] eqn:Hmsg; cbn [dict_present];
      try (run_world; do 2 eexists; reflexivity).
    destruct (extract_content_returns (entry :: msg)) as [text Htext].
    { intros blocks Hb. exact (Hok _ _ Hkind Hmsg Hb). }
    run_world. rewrite Htext. do 2 eexists. reflexivity.
  - run_world. do 2 eexists. reflexivity.
Qed.

Lemma convert_event_chunks (ev : TrajectoryEvent) (w : World)
    (env : Envelope) (w' : World) :
  convert_event ev w = (Return env, w') ->
  exists c1 c2 c3, stream_chunks env = [c1; c2; c3].
Proof.
  unfold convert_event, _create_tool_call_response, _create_message_response.
  destruct (String.eqb (kind ev) "ActionEvent" && dict_present (tool_call ev)).
  - destruct (tool_call ev) as [[| entry tc] |]; run_world; intros [= <- <-];
      do 3 eexists; reflexivity.
  - destruct (String.eqb (kind ev) "MessageEvent" && dict_present (llm_message ev)).
    + destruct (llm_message ev) as [[| entry msg] |]; run_world;
        try (intros [= <- <-]; do 3 eexists; reflexivity).
      destruct (_extract_content (entry :: msg)); [| discriminate].
      intros [= <- <-]. do 3 eexists. reflexivity.
    + run_world. intros [= <- <-]. do 3 eexists. reflexivity.
Qed.

Section HandlerChat.

Variable json_dumps : pyval -> string.

(** X14: A chat-completions request whose body is an object, on a state whose
    cursor points at an event that converts, is answered 200 with that
    event's envelope and moves the cursor by one: the completion as JSON,
    or, when [stream] is true in Python's sense, the chunks as an
    event stream with the two no-buffering headers. *)
Theorem chat_serves_next_event (request : Request) (d : pydict) (s : Server)
    (ev : TrajectoryEvent) (env : Envelope) (w' : World) :
  is_chat_post request ->
  data request = Loaded (PDict d) ->
  0 <= current_index (replay_state s) ->
  responses (replay_state s) !! Z.to_nat (current_index (replay_state s)) = Some ev ->
  convert_event ev (world s) = (Return env, w') ->
  handler json_dumps request s
  = (Return
       (if truthy (dict_get d "stream" (PBool false))
        then {| body := _format_sse_response json_dumps (stream_chunks env);
                status := 200;
                content_type := "text/event-stream";
                headers := [("Cache-Control", "no-cache");
                            ("Connection", "keep-alive")] |}
        else {| body := json_dumps (completion env);
                status := 200;
                content_type := "application/json";
                headers := [] |}),
     {| replay_state :=
          set_current_index (replay_state s) (current_index (replay_state s) + 1);
        world := w' |}).
Proof.
  intros Hc Hd Hpos Hev Hconv.
  rewrite (handler_chat_object json_dumps request d s Hc Hd). unfold chat_outcome.
  destruct (get_next_response_draw (replay_state s)) as (e & He & ->).
  { split; [exact Hpos |]. apply lookup_lt_Some in Hev. lia. }
  rewrite Hev in He. injection He as <-. rewrite Hconv. reflexivity.
Qed.

(** X15: An event that cannot be converted is lost: when the cursor points at
    a message event whose text extraction raises, the handler raises the
    same exception, and yet the cursor has moved by one and one
    identifier has been drawn. *)
Theorem failed_conversion_consumes_event (request : Request) (d : pydict)
    (s : Server) (ev : TrajectoryEvent) (msg : pydict) (e : exn) :
  is_chat_post request ->
  data request = Loaded (PDict d) ->
  0 <= current_index (replay_state s) ->
  responses (replay_state s) !! Z.to_nat (current_index (replay_state s)) = Some ev ->
  kind ev = "MessageEvent" ->
  llm_message ev = Some msg ->
  msg <> [] ->
  _extract_content msg = Raise e ->
  handler json_dumps request s
  = (Raise e,
     {| replay_state :=
          set_current_index (replay_state s) (current_index (replay_state s) + 1);
        world := snd (uuid4_hex (world s)) |}).
Proof.
  intros Hc Hd Hpos Hev Hkind Hmsg Hne Hraise.
  rewrite (handler_chat_object json_dumps request d s Hc Hd). unfold chat_outcome.
  destruct (get_next_response_draw (replay_state s)) as (e' & He & ->).
  { split; [exact Hpos |]. apply lookup_lt_Some in Hev. lia. }
  rewrite Hev in He. injection He as <-.
  unfold convert_event, _create_message_response. rewrite Hkind, Hmsg.
  destruct msg as [| entry msg]; [contradiction |].
  cbn [String.eqb Ascii.eqb Bool.eqb andb dict_present].
  unfold bind, lift_outcome. cbn [uuid4_hex]. rewrite Hraise. reflexivity.
Qed.

(** X16: Of the body of a chat-completions request the handler uses nothing
    but the truth value of [stream]: two requests to either of the two
    paths whose bodies are objects with [stream] alike in truth value
    get the same answer and leave the same state, whatever else the
    bodies hold. *)
Theorem chat_body_ignored_but_stream (request1 request2 : Request)
    (d1 d2 : pydict) (s : Server) :
  is_chat_post request1 -> data request1 = Loaded (PDict d1) ->
  is_chat_post request2 -> data request2 = Loaded (PDict d2) ->
  truthy (dict_get d1 "stream" (PBool false))
  = truthy (dict_get d2 "stream" (PBool false)) ->
  handler json_dumps request1 s = handler json_dumps request2 s.
Proof.
  intros Hc1 Hd1 Hc2 Hd2 Hsame.
  rewrite (handler_chat_object json_dumps request1 d1 s Hc1 Hd1).
  rewrite (handler_chat_object json_dumps request2 d2 s Hc2 Hd2).
  unfold chat_outcome. rewrite Hsame. reflexivity.
Qed.

(** X17: The handler answers, with 200, 400 or 404, every request on whose
    body [json.loads] returns an object or raises [JSONDecodeError]
    (and no other exception), provided the cursor is in range and the
    text of the event it points at, if any, can be extracted. *)
Theorem handler_responds (request : Request) (s : Server) :
  cursor_in_range (replay_state s) ->
  (forall v, data request = Loaded v -> exists d, v = PDict d) ->
  (forall e, data request <> LoadsRaised e) ->
  (forall ev,
     responses (replay_state s) !! Z.to_nat (current_index (replay_state s)) = Some ev ->
     event_text_ok ev) ->
  exists resp,
    fst (handler json_dumps request s) = Return resp /\
    (status resp = 200 \/ status resp = 400 \/ status resp = 404).
Proof.
  intros [Hlo Hhi] Hbody Hloads Hev.
  destruct (handler_cases request)
    as [(Hh & _) | [(Hr & _) | [(Hc & _) | (Hu & _)]]].
  - rewrite (handler_health json_dumps request s Hh). eexists. split; [reflexivity |].
    left. reflexivity.
  - rewrite (handler_reset json_dumps request s Hr). eexists. split; [reflexivity |].
    left. reflexivity.
  - destruct (data request) as [v | | e0] eqn:Hd;
      [| | exfalso; exact (Hloads e0 eq_refl)].
    + destruct (Hbody v eq_refl) as [d ->].
      rewrite (handler_chat_object json_dumps request d s Hc Hd). unfold chat_outcome.
      destruct (Z.ltb_spec (current_index (replay_state s))
                  (Z.of_nat (length (responses (replay_state s))))) as [Hlt | Hge].
      * destruct (get_next_response_draw (replay_state s)) as (e & He & ->); [lia |].
        destruct (convert_event_returns e (world s) (Hev e He)) as (env & w' & ->).
        cbn [fst].
        destruct (truthy (dict_get d "stream" (PBool false)));
          eexists; (split; [reflexivity | left; reflexivity]).
      * rewrite get_next_response_exhausted by lia.
        destruct (create_default_response_run "Task completed." (world s))
          as (env & w' & -> & _).
        cbn [fst].
        destruct (truthy (dict_get d "stream" (PBool false)));
          eexists; (split; [reflexivity | left; reflexivity]).
    + rewrite (handler_chat_post json_dumps request Hc), Hd.
      eexists. split; [reflexivity |]. right. left. reflexivity.
  - rewrite (handler_unrecognized json_dumps request Hu).
    eexists. split; [reflexivity |]. right. right. reflexivity.
Qed.

(** X18: The body of a streamed answer: for the envelope of any event, one
    frame [data: <json>] followed by an empty line for each of the three
    chunks, in order, then the frame [data: [DONE]] and an empty line. *)
Theorem sse_body_of_envelope (ev : TrajectoryEvent) (w : World)
    (env : Envelope) (w' : World) :
  convert_event ev w = (Return env, w') ->
  exists c1 c2 c3,
    stream_chunks env = [c1; c2; c3] /\
    body (sse_response json_dumps env)
    = ("data: " ++ json_dumps c1 ++ LF ++ LF)
      ++ ("data: " ++ json_dumps c2 ++ LF ++ LF)
      ++ ("data: " ++ json_dumps c3 ++ LF ++ LF)
      ++ "data: [DONE]" ++ LF ++ LF.
Proof.
  intros Hconv.
  destruct (convert_event_chunks ev w env w' Hconv) as (c1 & c2 & c3 & Hchunks).
  exists c1, c2, c3. split; [exact Hchunks |].
  unfold sse_response, _format_sse_response. cbn [body]. rewrite Hchunks.
  reflexivity.
Qed.

End HandlerChat.

(** ** The handler at work on the sample data *)

Lemma health_counts_draws_witness :
  handler sample_dumps health_request (sample_server two_events)
  = (Return {| body := sample_dumps
                         (PDict [("status", PStr "ok");
                                 ("server", PStr "mock-llm-trajectory");
                                 ("responses_remaining", PInt 2)]);
               status := 200;
               content_type := "application/json";
               headers := [] |}, sample_server two_events) /\
  fst (handler sample_dumps health_request
         (snd (handler sample_dumps (chat_request false) (sample_server two_events))))
  = Return {| body := sample_dumps
                        (PDict [("status", PStr "ok");
                                ("server", PStr "mock-llm-trajectory");
                                ("responses_remaining", PInt 1)]);
              status := 200;
              content_type := "application/json";
              headers := [] |}.
Proof.
  apply (health_counts_draws sample_dumps health_request (chat_request false)
           [("stream", PBool false)] (sample_server two_events)).
  - split; [left; reflexivity | reflexivity].
  - split; [left; reflexivity | reflexivity].
  - reflexivity.
  - unfold cursor_in_range. cbn. lia.
Defined.

Lemma reset_route_rewinds_witness :
  handler sample_dumps reset_request exhausted_server
  = (Return {| body := sample_dumps (PDict [("status", PStr "reset")]);
               status := 200;
               content_type := "application/json";
               headers := [] |},
     {| replay_state := new_replay_state two_events; world := sample_world |}) /\
  fst (handler sample_dumps health_request
         (snd (handler sample_dumps reset_request exhausted_server)))
  = Return (health_response sample_dumps 2) /\
  fst (get_next_response
         (replay_state (snd (handler sample_dumps reset_request exhausted_server))))
  = Return (Some action_event).
Proof.
  apply (reset_route_rewinds sample_dumps reset_request health_request
           exhausted_server).
  - split; reflexivity.
  - split; [left; reflexivity | reflexivity].
Defined.

Lemma chat_serves_next_event_witness :
  handler sample_dumps (chat_request true) (sample_server two_events)
  = (Return
       (if truthy (dict_get [("stream", PBool true)] "stream" (PBool false))
        then {| body := _format_sse_response sample_dumps
                          (stream_chunks
                             (envelope_of (convert_event action_event sample_world)));
                status := 200;
                content_type := "text/event-stream";
                headers := [("Cache-Control", "no-cache");
                            ("Connection", "keep-alive")] |}
        else {| body := sample_dumps
                          (completion
                             (envelope_of (convert_event action_event sample_world)));
                status := 200;
                content_type := "application/json";
                headers := [] |}),
     {| replay_state := set_current_index (new_replay_state two_events) (0 + 1);
        world := snd (convert_event action_event sample_world) |}).
Proof.
  apply (chat_serves_next_event sample_dumps (chat_request true)
           [("stream", PBool true)] (sample_server two_events) action_event).
  - split; [left; reflexivity | reflexivity].
  - reflexivity.
  - cbn. lia.
  - reflexivity.
  - reflexivity.
Defined.

Lemma failed_conversion_consumes_event_witness :
  handler sample_dumps (chat_request false)
    (sample_server [broken_message_event; message_event])
  = (Raise TypeError,
     {| replay_state :=
          set_current_index
            (new_replay_state [broken_message_event; message_event]) (0 + 1);
        world := snd (uuid4_hex sample_world) |}).
Proof.
  apply (failed_conversion_consumes_event sample_dumps (chat_request false)
           [("stream", PBool false)]
           (sample_server [broken_message_event; message_event])
           broken_message_event
           [("content", PList [PDict [("type", PStr "text"); ("text", PNone)]])]).
  - split; [left; reflexivity | reflexivity].
  - reflexivity.
  - cbn. lia.
  - reflexivity.
  - reflexivity.
  - reflexivity.
  - discriminate.
  - reflexivity.
Defined.

Lemma chat_body_ignored_but_stream_witness :
  handler sample_dumps (chat_request true) (sample_server two_events)
  = handler sample_dumps verbose_chat_request (sample_server two_events).
Proof.
  apply (chat_body_ignored_but_stream sample_dumps (chat_request true)
           verbose_chat_request [("stream", PBool true)]
           [("model", PStr "gpt-4o"); ("messages", PList []); ("stream", PInt 1)]).
  - split; [left; reflexivity | reflexivity].
  - reflexivity.
  - split; [right; reflexivity | reflexivity].
  - reflexivity.
  - reflexivity.
Defined.

Lemma handler_responds_witness :
  exists resp,
    fst (handler sample_dumps (chat_request false) (sample_server two_events))
    = Return resp /\
    (status resp = 200 \/ status resp = 400 \/ status resp = 404).
Proof.
  apply (handler_responds sample_dumps (chat_request false)
           (sample_server two_events)).
  - unfold cursor_in_range. cbn. lia.
  - intros v [= <-]. eexists. reflexivity.
  - intros e H. discriminate H.
  - intros ev [= <-] msg blocks Hkind. discriminate Hkind.
Defined.

Lemma sse_body_of_envelope_witness :
  exists c1 c2 c3,
    stream_chunks (envelope_of (convert_event message_event sample_world))
    = [c1; c2; c3] /\
    body (sse_response sample_dumps
            (envelope_of (convert_event message_event sample_world)))
    = ("data: " ++ sample_dumps c1 ++ LF ++ LF)
      ++ ("data: " ++ sample_dumps c2 ++ LF ++ LF)
      ++ ("data: " ++ sample_dumps c3 ++ LF ++ LF)
      ++ "data: [DONE]" ++ LF ++ LF.
Proof.
  apply (sse_body_of_envelope sample_dumps message_event sample_world _
           (snd (convert_event message_event sample_world))).
  reflexivity.
Defined.

(** ** The life cycle of the server *)

Section MockServerProperties.

Variable HTTPServer : Type.
Variable HTTPServer_new : string -> Z -> HTTPServer.
Variable respond_with_handler : HTTPServer -> HTTPServer.
Variable server_start : HTTPServer -> HTTPServer.
Variable server_port : HTTPServer -> Z.
Variable server_clear : HTTPServer -> HTTPServer.
Variable server_is_running : HTTPServer -> bool.
Variable server_stop : HTTPServer -> HTTPServer.

Local Abbreviation start_ :=
  (start HTTPServer HTTPServer_new respond_with_handler server_start server_port).
Local Abbreviation stop_ :=
  (stop HTTPServer server_clear server_is_running server_stop).

(** X19: [stop()] is idempotent.  It does nothing on a server that is not
    started; on a started one it clears the library server, stops it if
    it runs, and forgets it, keeping the replay state and the port; a
    second [stop()] then touches nothing. *)
Theorem stop_idempotent (self : MockLLMServer HTTPServer) :
  stop_ (fst (stop_ self)) = (fst (stop_ self), None) /\
  _server (fst (stop_ self)) = None /\
  _replay_state (fst (stop_ self)) = _replay_state self /\
  port (fst (stop_ self)) = port self /\
  (_server self = None -> stop_ self = (self, None)) /\
  (forall server,
     _server self = Some server ->
     snd (stop_ self)
     = Some (if server_is_running (server_clear server)
             then server_stop (server_clear server)
             else server_clear server)).
Proof.
  unfold stop. destruct (_server self) as [server |] eqn:Hs; cbn [fst snd _server].
  - repeat split; try reflexivity; try discriminate.
    intros server' [= <-]. reflexivity.
  - rewrite Hs. repeat split; try reflexivity; try discriminate.
Qed.

(** X20: [start()] always begins a new replay: whatever state the server was
    in, the replay state is a fresh one over the trajectory's responses
    (no events without a trajectory), so the first draw returns the
    first of them; the port becomes the one the library server reports,
    and the URL returned is [base_url]. *)
Theorem start_begins_new_replay (self : MockLLMServer HTTPServer) :
  let events :=
    match trajectory self with
    | Some t => get_llm_responses t
    | None => []
    end in
  let server :=
    server_start (respond_with_handler (HTTPServer_new (host self) (port self))) in
  fst (start_ self)
  = {| host := host self; port := server_port server;
       trajectory := trajectory self; _server := Some server;
       _replay_state := Some (new_replay_state events) |} /\
  snd (start_ self)
  = "http://" ++ host self ++ ":" ++ str_of_int (server_port server) /\
  snd (start_ self) = base_url (fst (start_ self)) /\
  fst (get_next_response (new_replay_state events)) = Return (head events).
Proof.
  cbv zeta. repeat split.
  destruct (match trajectory self with
            | Some t => get_llm_responses t
            | None => []
            end) as [| e rest]; [reflexivity |].
  destruct (get_next_response_draw (new_replay_state (e :: rest)))
    as (e' & Hl & ->).
  - cbn [new_replay_state current_index responses length]. lia.
  - cbn in Hl. injection Hl as <-. reflexivity.
Qed.

(** X21: [reset()] of the server does nothing before [start()]; afterwards it
    rewinds the replay state the handler serves from and nothing else,
    and it still does so after [stop()], which keeps that state. *)
Theorem server_reset_rewinds (self : MockLLMServer HTTPServer) :
  (_replay_state self = None -> server_reset self = self) /\
  (forall st,
     _replay_state self = Some st ->
     server_reset self
     = {| host := host self; port := port self; trajectory := trajectory self;
          _server := _server self;
          _replay_state := Some (new_replay_state (responses st)) |} /\
     _replay_state (server_reset (fst (stop_ self)))
     = Some (new_replay_state (responses st))).
Proof.
  unfold server_reset. split.
  - intros ->. reflexivity.
  - intros st Hst. rewrite Hst. split; [reflexivity |].
    unfold stop. destruct (_server self); cbn [fst _replay_state]; rewrite Hst;
      reflexivity.
Qed.

(** A [with] block: on the way out the library server started on the
    way in is cleared, stopped if it runs, and forgotten; the replay
    state and the resolved port stay readable. *)
Lemma with_block_stops_server (self : MockLLMServer HTTPServer) :
  let server :=
    server_start (respond_with_handler (HTTPServer_new (host self) (port self))) in
  let entered := __enter__ HTTPServer HTTPServer_new respond_with_handler
                   server_start server_port self in
  __exit__ HTTPServer server_clear server_is_running server_stop entered
  = ({| host := host self; port := server_port server;
        trajectory := trajectory self; _server := None;
        _replay_state := _replay_state entered |},
     Some (if server_is_running (server_clear server)
           then server_stop (server_clear server)
           else server_clear server)).
Proof. reflexivity. Qed.

(** X22: Without a trajectory the started server answers every
    chat-completions request whose body is an object with the default
    response: 200 and the completion as JSON, whose message content is
    ["Task completed."], or, when [stream] is true, one [data:] frame
    for each of the three chunks, the 2nd carrying that content,
    followed by [data: [DONE]].  Its replay state stays as it is, so the
    same holds for the request after. *)
Theorem no_trajectory_serves_defaults (json_dumps : pyval -> string)
    (self : MockLLMServer HTTPServer) (request : Request) (d : pydict) (w : World) :
  trajectory self = None ->
  is_chat_post request ->
  data request = Loaded (PDict d) ->
  exists env w' c1 c2 c3,
    create_default_response "Task completed." w = (Return env, w') /\
    message_content (completion env) = Some (PStr "Task completed.") /\
    stream_chunks env = [c1; c2; c3] /\
    chunk_content c2 = Some (PStr "Task completed.") /\
    serve json_dumps request (fst (start_ self)) w
    = Some (Return
              (if truthy (dict_get d "stream" (PBool false))
               then {| body := ("data: " ++ json_dumps c1 ++ LF ++ LF)
                               ++ ("data: " ++ json_dumps c2 ++ LF ++ LF)
                               ++ ("data: " ++ json_dumps c3 ++ LF ++ LF)
                               ++ "data: [DONE]" ++ LF ++ LF;
                       status := 200;
                       content_type := "text/event-stream";
                       headers := [("Cache-Control", "no-cache");
                                   ("Connection", "keep-alive")] |}
               else {| body := json_dumps (completion env);
                       status := 200;
                       content_type := "application/json";
                       headers := [] |}),
            fst (start_ self), w').
Proof.
  intros Htraj Hc Hd.
  destruct (create_default_response_says "Task completed." w)
    as (env & w' & c1 & c2 & c3 & Hrun & Hcontent & Hchunks & Hsecond).
  exists env, w', c1, c2, c3.
  split; [exact Hrun |]. split; [exact Hcontent |].
  split; [exact Hchunks |]. split; [exact Hsecond |].
  unfold serve, start. rewrite Htraj. cbn [fst _server _replay_state].
  rewrite (handler_chat_object json_dumps request d _ Hc Hd).
  unfold chat_outcome. cbn [replay_state world].
  rewrite get_next_response_exhausted
    by (cbn [new_replay_state responses current_index length]; lia).
  rewrite Hrun.
  unfold sse_response, completion_response, _format_sse_response.
  rewrite Hchunks.
  destruct (truthy (dict_get d "stream" (PBool false))); reflexivity.
Qed.

End MockServerProperties.

Lemma no_trajectory_serves_defaults_witness :
  exists env w' c1 c2 c3,
    create_default_response "Task completed." sample_world = (Return env, w') /\
    message_content (completion env) = Some (PStr "Task completed.") /\
    stream_chunks env = [c1; c2; c3] /\
    chunk_content c2 = Some (PStr "Task completed.") /\
    serve sample_dumps (chat_request false) (fst (sample_start bare_server))
      sample_world
    = Some (Return
              (if truthy (dict_get [("stream", PBool false)] "stream" (PBool false))
               then {| body := ("data: " ++ sample_dumps c1 ++ LF ++ LF)
                               ++ ("data: " ++ sample_dumps c2 ++ LF ++ LF)
                               ++ ("data: " ++ sample_dumps c3 ++ LF ++ LF)
                               ++ "data: [DONE]" ++ LF ++ LF;
                       status := 200;
                       content_type := "text/event-stream";
                       headers := [("Cache-Control", "no-cache");
                                   ("Connection", "keep-alive")] |}
               else {| body := sample_dumps (completion env);
                       status := 200;
                       content_type := "application/json";
                       headers := [] |}),
            fst (sample_start bare_server), w').
Proof.
  apply (no_trajectory_serves_defaults sample_http sample_http_new
           (fun srv => srv) sample_http_start listening_on sample_dumps
           bare_server (chat_request false) [("stream", PBool false)] sample_world).
  - reflexivity.
  - split; [left; reflexivity | reflexivity].
  - reflexivity.
Defined.

(** ** Any number of concurrent callers *)

Section AnyCallers.

Variable events : list TrajectoryEvent.

Lemma pc_sound_outside (l : list pc) (z : Z) :
  critical l = 0%nat ->
  z < Z.of_nat (length events) ->
  Forall (pc_sound events z) l -> Forall (pc_sound events (z + 1)) l.
Proof.
  induction l as [| p l IH]; intros Hc Hz Hok; [constructor |].
  apply List.Forall_cons_iff in Hok as [Hp Hl].
  change (p :: l) with ([] ++ p :: l)%list in Hc.
  rewrite critical_middle in Hc.
  constructor.
  - destruct p; simpl in *; try lia; try exact I.
    destruct Hp as [Hp | [_ Hend]]; [left; exact Hp | lia].
  - apply IH; [lia | exact Hz | exact Hl].
Qed.

Lemma sinv_local_step (sh : TrajectoryReplayState) (lk lk' : bool)
    (l1 l2 : list pc) (p p' : pc) :
  shared_inv events {| shared := sh; locked := lk; threads := l1 ++ p :: l2 |} ->
  drawn p' = drawn p ->
  pc_sound events (current_index sh) p' ->
  ((if in_critical_section p' then 1 else 0) + (if lk then 1 else 0)
   = (if in_critical_section p then 1 else 0) + (if lk' then 1 else 0))%nat ->
  shared_inv events {| shared := sh; locked := lk'; threads := l1 ++ p' :: l2 |}.
Proof.
  intros [Hr Hlock Hcur Hrange Hdrawn Hpcs] Hsame Hok Hcount.
  cbn [shared locked threads] in *.
  rewrite critical_middle in Hlock.
  rewrite drawn_by_middle in Hcur, Hrange, Hdrawn.
  apply Forall_app in Hpcs as [Hl1 Hl2].
  apply List.Forall_cons_iff in Hl2 as [_ Hl2].
  split; cbn [shared locked threads].
  - exact Hr.
  - rewrite critical_middle. destruct lk, lk'; lia.
  - rewrite drawn_by_middle, Hsame. exact Hcur.
  - rewrite drawn_by_middle, Hsame. exact Hrange.
  - rewrite drawn_by_middle, Hsame. exact Hdrawn.
  - apply Forall_app. split; [exact Hl1 |]. constructor; assumption.
Qed.

Lemma sinv_store_step (sh : TrajectoryReplayState) (lk : bool)
    (l1 l2 : list pc) (response : TrajectoryEvent) (v : Z) :
  shared_inv events
    {| shared := sh; locked := lk; threads := l1 ++ AtStore response v :: l2 |} ->
  shared_inv events
    {| shared := set_current_index sh v; locked := lk;
       threads := l1 ++ AtExit (Return (Some response)) :: l2 |}.
Proof.
  intros [Hr Hlock Hcur Hrange Hdrawn Hpcs].
  cbn [shared locked threads] in *.
  rewrite critical_middle in Hlock.
  rewrite drawn_by_middle in Hcur, Hrange, Hdrawn.
  apply Forall_app in Hpcs as [Hl1 Hl2].
  apply List.Forall_cons_iff in Hl2 as [[Hnext ->] Hl2].
  cbn [drawn app in_critical_section] in *.
  assert (Hbelow : current_index sh < Z.of_nat (length events)).
  { rewrite Hcur, Nat2Z.id in Hnext. apply lookup_lt_Some in Hnext. lia. }
  rewrite Hcur, Nat2Z.id in Hnext.
  assert (critical l1 = 0%nat /\ critical l2 = 0%nat) as [Hc1 Hc2]
    by (destruct lk; lia).
  split; cbn [shared locked threads set_current_index responses current_index].
  - exact Hr.
  - rewrite critical_middle. exact Hlock.
  - rewrite drawn_by_middle, Hcur, !length_app. cbn [drawn length]. lia.
  - rewrite drawn_by_middle, !length_app. cbn [drawn length].
    rewrite length_app in Hcur. lia.
  - rewrite drawn_by_middle. cbn [drawn app].
    replace (length (drawn_by l1 ++ response :: drawn_by l2))
      with (S (length (drawn_by l1 ++ drawn_by l2)))
      by (rewrite !length_app; cbn [length]; lia).
    rewrite (take_S_r _ _ _ Hnext).
    rewrite <- Permutation_middle, <- Permutation_cons_append.
    apply Permutation_cons; [reflexivity | exact Hdrawn].
  - apply Forall_app. split.
    + apply pc_sound_outside; assumption.
    + constructor; [left; exists response; reflexivity |].
      apply pc_sound_outside; assumption.
Qed.

Lemma thread_step_sinv (i : nat) (c c' : Config) :
  shared_inv events c -> thread_step i c = Some c' -> shared_inv events c'.
Proof.
  destruct c as [sh lk ts]. intros Hinv Hstep.
  unfold thread_step, move in Hstep. cbn [shared locked threads] in Hstep.
  destruct (ts !! i) as [p |] eqn:Hi; [| discriminate].
  destruct (thread_split ts i p Hi) as (l1 & l2 & -> & Hins).
  assert (Hcur := sinv_cursor _ _ Hinv).
  assert (Hr := sinv_responses _ _ Hinv).
  assert (Hrange := sinv_range _ _ Hinv).
  assert (Hlock := sinv_lock _ _ Hinv).
  assert (Hp : pc_sound events (current_index sh) p).
  { pose proof (sinv_pcs _ _ Hinv) as Hpcs. cbn [threads shared] in Hpcs.
    apply Forall_app in Hpcs as [_ Hpcs].
    apply List.Forall_cons_iff in Hpcs as [Hp _]. exact Hp. }
  cbn [shared locked threads] in Hcur, Hr, Hrange, Hlock.
  rewrite critical_middle in Hlock.
  destruct p as [| | | response | response v | r | r].
  - destruct lk; [discriminate |]. injection Hstep as <-. rewrite Hins.
    eapply sinv_local_step; [exact Hinv | reflexivity | exact I | reflexivity].
  - destruct (Z.geb_spec (current_index sh) (Z.of_nat (length (responses sh))))
      as [Hge | Hlt]; injection Hstep as <-; rewrite Hins.
    + eapply sinv_local_step;
        [exact Hinv | reflexivity | | destruct lk; reflexivity].
      right. split; [reflexivity |]. rewrite Hr in Hge. lia.
    + eapply sinv_local_step;
        [exact Hinv | reflexivity | | destruct lk; reflexivity].
      cbn [pc_sound]. rewrite <- Hr. exact Hlt.
  - cbn [pc_sound] in Hp.
    destruct (py_index_in_range (responses sh) (current_index sh))
      as (response & Hnext & Hread); [rewrite Hr; lia |].
    rewrite Hread in Hstep. injection Hstep as <-. rewrite Hins.
    eapply sinv_local_step; [exact Hinv | reflexivity | | destruct lk; reflexivity].
    cbn [pc_sound]. rewrite <- Hr. exact Hnext.
  - injection Hstep as <-. rewrite Hins.
    eapply sinv_local_step; [exact Hinv | reflexivity | | destruct lk; reflexivity].
    cbn [pc_sound] in *. split; [exact Hp | reflexivity].
  - injection Hstep as <-. rewrite Hins.
    apply sinv_store_step. exact Hinv.
  - injection Hstep as <-. rewrite Hins.
    eapply sinv_local_step; [exact Hinv | reflexivity | exact Hp |].
    cbn [in_critical_section] in *. destruct lk; lia.
  - discriminate.
Qed.

Lemma run_sinv (schedule : list nat) :
  forall c c',
    shared_inv events c -> run schedule c = Some c' -> shared_inv events c'.
Proof.
  induction schedule as [| i schedule IH]; intros c c' Hinv Hrun.
  - injection Hrun as <-. exact Hinv.
  - cbn [run] in Hrun.
    destruct (thread_step i c) as [c1 |] eqn:Hstep; [| discriminate].
    eapply IH; [| exact Hrun]. eapply thread_step_sinv; eassumption.
Qed.

Lemma start_config_sinv (m : nat) : shared_inv events (start_config events m).
Proof.
  split; cbn [start_config shared locked threads new_replay_state
                responses current_index].
  - reflexivity.
  - apply critical_start.
  - rewrite drawn_by_start. reflexivity.
  - rewrite drawn_by_start. cbn [length]. lia.
  - rewrite drawn_by_start. reflexivity.
  - apply Forall_forall. intros p Hp. apply elem_of_replicate in Hp as [-> _].
    exact I.
Qed.

Lemma results_cons_finished (r : outcome (option TrajectoryEvent)) (ts : list pc) :
  results (Finished r :: ts) = r :: results ts.
Proof. reflexivity. Qed.

Lemma drawn_by_cons (p : pc) (ts : list pc) :
  drawn_by (p :: ts) = (drawn p ++ drawn_by ts)%list.
Proof. reflexivity. Qed.

(** Once every thread has returned: those that drew hold their event,
    the others hold [None], and there are others only if the cursor is
    at the end. *)
Lemma finished_results (z : Z) (ts : list pc) :
  Forall (pc_sound events z) ts ->
  forallb is_finished ts = true ->
  results ts
  ≡ₚ (((fun e => Return (Some e)) <$> drawn_by ts)
      ++ replicate (length ts - length (drawn_by ts)) (Return None))%list /\
  ((length (drawn_by ts) < length ts)%nat -> z = Z.of_nat (length events)).
Proof.
  induction 1 as [| p ts Hp _ IH]; [split; [reflexivity | cbn; lia] |].
  cbn [forallb]. intros Hfin. apply andb_true_iff in Hfin as [Hp_fin Hts].
  destruct (IH Hts) as [Hperm Hend].
  pose proof (drawn_by_length ts) as Hle.
  destruct p as [| | | | | | r]; try discriminate.
  rewrite results_cons_finished, drawn_by_cons.
  destruct Hp as [[e ->] | [-> Hz]].
  - cbn [drawn app length fmap list_fmap]. split.
    + apply Permutation_cons; [reflexivity | exact Hperm].
    + intros Hlt. apply Hend. lia.
  - cbn [drawn app length]. split; [| intros _; exact Hz].
    replace (S (length ts) - length (drawn_by ts))%nat
      with (S (length ts - length (drawn_by ts))) by lia.
    cbn [replicate]. rewrite <- Permutation_middle.
    apply Permutation_cons; [reflexivity | exact Hperm].
Qed.

Lemma thread_step_threads_length (i : nat) (c c' : Config) :
  thread_step i c = Some c' -> length (threads c') = length (threads c).
Proof.
  unfold thread_step, move.
  destruct (threads c !! i) as [p |]; [| discriminate].
  destruct p; intros Hstep;
    repeat match type of Hstep with
           | (if ?b then _ else _) = Some _ => destruct b
           | match ?o with Return _ => _ | Raise _ => _ end = Some _ => destruct o
           end;
    try discriminate; injection Hstep as <-; cbn [threads]; apply length_insert.
Qed.

Lemma run_threads_length (schedule : list nat) :
  forall c c', run schedule c = Some c' -> length (threads c') = length (threads c).
Proof.
  induction schedule as [| i schedule IH]; intros c c' Hrun.
  - injection Hrun as <-. reflexivity.
  - cbn [run] in Hrun.
    destruct (thread_step i c) as [c1 |] eqn:Hstep; [| discriminate].
    rewrite (IH _ _ Hrun). eapply thread_step_threads_length. exact Hstep.
Qed.

Lemma can_step_when_unfinished (c : Config) :
  critical (threads c) = (if locked c then 1%nat else 0%nat) ->
  all_finished c = false ->
  exists i c', thread_step i c = Some c'.
Proof.
  destruct c as [sh lk ts]. cbn [threads locked]. intros Hlock Hfin.
  unfold all_finished in Hfin. cbn [threads] in Hfin.
  assert (exists i p, ts !! i = Some p /\
                      if lk then in_critical_section p = true
                      else is_finished p = false) as (i & p & Hi & Hp).
  { destruct lk.
    - unfold critical in Hlock.
      destruct (List.filter in_critical_section ts) as [| p rest] eqn:Hf;
        [discriminate |].
      assert (In p (List.filter in_critical_section ts)) as Hin
        by (rewrite Hf; left; reflexivity).
      apply List.filter_In in Hin as [Hin Hcs].
      apply list_elem_of_In, list_elem_of_lookup in Hin as [i Hi].
      exists i, p. split; assumption.
    - apply forallb_false_lookup in Hfin. exact Hfin. }
  exists i. unfold thread_step, move. cbn [shared locked threads]. rewrite Hi.
  destruct p as [| | | response | response v | r | r]; try (eexists; reflexivity).
  - destruct lk; [discriminate | eexists; reflexivity].
  - destruct (current_index sh >=? Z.of_nat (length (responses sh)));
      eexists; reflexivity.
  - destruct (py_index (responses sh) (current_index sh)); eexists; reflexivity.
  - destruct lk; discriminate.
Qed.

End AnyCallers.

(** X23: Mutual exclusion: however many threads call [get_next_response] on
    a fresh state and however their steps interleave, at most one thread
    is inside the [with] block, none when the lock is free; the list of
    events is never changed and the cursor never leaves its range. *)
Theorem callers_exclude_one_another
    (events : list TrajectoryEvent) (m : nat) (schedule : list nat) (c : Config) :
  run schedule (start_config events m) = Some c ->
  (critical (threads c) <= 1)%nat /\
  (locked c = false -> critical (threads c) = 0%nat) /\
  responses (shared c) = events /\
  cursor_in_range (shared c).
Proof.
  intros Hrun.
  pose proof (run_sinv events schedule _ _ (start_config_sinv events m) Hrun)
    as [Hr Hlock Hcur Hrange _ _].
  split; [destruct (locked c); lia |].
  split; [intros Hfree; rewrite Hfree in Hlock; exact Hlock |].
  split; [exact Hr |].
  unfold cursor_in_range. rewrite Hr, Hcur. lia.
Qed.

(** X24: Any number [m] of threads, each calling [get_next_response] once on
    a fresh state: every interleaving has at most [6 * m] steps and can
    go on until all have returned; then none has raised, the threads
    that got an event hold the first [min m len] events, each exactly
    once, the [m - len] others hold [None], and the cursor stands at
    [min m len]. *)
Theorem concurrent_draws_any_callers
    (events : list TrajectoryEvent) (m : nat) (schedule : list nat) (c : Config) :
  run schedule (start_config events m) = Some c ->
  (length schedule <= 6 * m)%nat /\
  (all_finished c = false -> exists i c', thread_step i c = Some c') /\
  (all_finished c = true ->
   exists taken : list TrajectoryEvent,
     taken ≡ₚ take m events /\
     results (threads c)
     ≡ₚ (((fun e => Return (Some e)) <$> taken)
         ++ replicate (m - length events) (Return None))%list /\
     current_index (shared c) = Z.of_nat (Nat.min m (length events))).
Proof.
  intros Hrun.
  pose proof (run_sinv events schedule _ _ (start_config_sinv events m) Hrun)
    as Hinv.
  pose proof (run_threads_length schedule _ _ Hrun) as Hlen.
  cbn [start_config threads] in Hlen. rewrite length_replicate in Hlen.
  split; [| split].
  - pose proof (run_length schedule _ _ Hrun) as Hsteps.
    cbn [start_config threads] in Hsteps.
    rewrite total_steps_left_start in Hsteps. lia.
  - apply can_step_when_unfinished. exact (sinv_lock _ _ Hinv).
  - intros Hfin.
    destruct (finished_results events _ _ (sinv_pcs _ _ Hinv) Hfin)
      as [Hperm Hend].
    pose proof (sinv_drawn _ _ Hinv) as Hdrawn.
    pose proof (sinv_range _ _ Hinv) as Hrange.
    pose proof (sinv_cursor _ _ Hinv) as Hcur.
    pose proof (drawn_by_length (threads c)) as Hle.
    rewrite Hlen in Hperm, Hend, Hle.
    exists (drawn_by (threads c)).
    destruct (decide (length (drawn_by (threads c)) < m)%nat) as [Hlt | Hge].
    + specialize (Hend Hlt). rewrite Hcur in Hend.
      apply Nat2Z.inj in Hend.
      rewrite Hend in Hdrawn, Hperm.
      rewrite take_ge in Hdrawn by lia.
      rewrite (take_ge events m) by lia.
      split; [exact Hdrawn |]. split; [exact Hperm |].
      rewrite Hcur, Hend. f_equal. lia.
    + assert (length (drawn_by (threads c)) = m) as Hm by lia.
      rewrite Hm in Hdrawn, Hperm.
      replace (m - length events)%nat with (m - m)%nat by lia.
      split; [exact Hdrawn |]. split; [exact Hperm |].
      rewrite Hcur, Hm. f_equal. lia.
Qed.

Lemma callers_exclude_one_another_witness :
  exists c,
    run [0; 0; 0]%nat (start_config two_events 3) = Some c /\
    (critical (threads c) <= 1)%nat /\
    (locked c = false -> critical (threads c) = 0%nat) /\
    responses (shared c) = two_events /\
    cursor_in_range (shared c).
Proof.
  eexists. split; [reflexivity |].
  apply (callers_exclude_one_another two_events 3 [0; 0; 0]%nat).
  reflexivity.
Defined.

Lemma concurrent_draws_any_callers_witness :
  exists c,
    run one_after_the_other (start_config [action_event] 2) = Some c /\
    all_finished c = true /\
    exists taken : list TrajectoryEvent,
      taken ≡ₚ take 2 [action_event] /\
      results (threads c)
      ≡ₚ (((fun e => Return (Some e)) <$> taken)
          ++ replicate (2 - length [action_event]) (Return None))%list /\
      current_index (shared c) = Z.of_nat (Nat.min 2 (length [action_event])).
Proof.
  eexists. split; [reflexivity |]. split; [reflexivity |].
  apply (concurrent_draws_any_callers [action_event] 2 one_after_the_other);
    reflexivity.
Defined.
